(** * kafkacl: connector lifecycle and configuration formatting

    A shallow embedding of the Kafka Connect client library:
    - [config.py]  : [ConfigOption], [BaseConfigFormatter.fields], [BaseConfigFormatter.to_dict];
    - [models.py]  : [TaskStatus], [ClientContext], the two exception classes;
    - [connect.py] : [ConnectClient] and its REST verbs;
    - [base.py]    : [BaseIntegrator], the lifecycle controller.

    Python dictionaries keep insertion order, and the order in which the
    controller walks the dynamic configuration decides the order of the REST
    calls, so a dictionary is an association list updated in place.  Effects
    (REST calls, log records, the peer relation store) are threaded through a
    state-and-exception monad in which the state survives a raised exception,
    as it does in Python. *)

From Stdlib Require Import String Ascii List ZArith Bool Lia.
From Stdlib Require Import DecimalString DecimalPos DecimalZ.
Import ListNotations.
Open Scope list_scope.
Open Scope string_scope.
Set Warnings "-register-all".

(** ** Python values *)

(** A decoded JSON document, which is also the shape of every configuration
    value the library handles (floats are left out: no code path inspects
    them). *)
Inductive json : Type :=
| JNull
| JBool (b : bool)
| JInt (z : Z)
| JStr (s : string)
| JList (l : list json)
| JDict (d : list (string * json)).

Module Dict.

(** A [dict] with string keys, in insertion order. *)
Definition t (V : Type) : Type := list (string * V).

Definition empty {V} : t V := [].

(** [d.get(k)] *)
Fixpoint get {V} (d : t V) (k : string) : option V :=
  match d with
  | [] => None
  | (k', v) :: d' => if String.eqb k k' then Some v else get d' k
  end.

(** [k in d] *)
Definition mem {V} (d : t V) (k : string) : bool :=
  match get d k with Some _ => true | None => false end.

(** [d[k] = v]: an existing key keeps its position, a new key goes last. *)
Fixpoint set {V} (d : t V) (k : string) (v : V) : t V :=
  match d with
  | [] => [(k, v)]
  | (k', v') :: d' =>
      if String.eqb k k' then (k', v) :: d' else (k', v') :: set d' k v
  end.

(** [d.keys()] *)
Definition keys {V} (d : t V) : list string := map fst d.

(** [a | b] and [a.update(b)]: the entries of [b] are assigned into [a] one
    after the other, so [b] wins on a shared key. *)
Definition merge {V} (a b : t V) : t V :=
  fold_left (fun acc kv => set acc (fst kv) (snd kv)) b a.

(** [d.pop(k)] for a key that may be absent, result dropped. *)
Fixpoint remove {V} (d : t V) (k : string) : t V :=
  match d with
  | [] => []
  | (k', v') :: d' =>
      if String.eqb k k' then remove d' k else (k', v') :: remove d' k
  end.

End Dict.

(** The double quote character, as a string. *)
Definition dquote : string := String (Ascii.ascii_of_nat 34) EmptyString.

(** [s.startswith(p)] *)
Definition startswith (s p : string) : bool := String.prefix p s.

(** [needle in hay] on two strings: substring test. *)
Fixpoint str_contains (needle hay : string) : bool :=
  String.prefix needle hay ||
  match hay with
  | EmptyString => false
  | String _ hay' => str_contains needle hay'
  end.

(** [s.split(sep)] with a one-character separator.  The result always has at
    least one piece: the empty string splits into one empty piece. *)
Fixpoint str_split (sep : ascii) (s : string) : list string :=
  match s with
  | EmptyString => [EmptyString]
  | String c s' =>
      if Ascii.eqb c sep then EmptyString :: str_split sep s'
      else match str_split sep s' with
           | [] => [String c EmptyString]
           | p :: ps => String c p :: ps
           end
  end.

(** [s.replace(c, empty)] for a one-character [c]. *)
Fixpoint str_remove (c : ascii) (s : string) : string :=
  match s with
  | EmptyString => EmptyString
  | String a s' => if Ascii.eqb a c then str_remove c s' else String a (str_remove c s')
  end.

(** Truth value of a string: [bool(s)]. *)
Definition str_truthy (s : string) : bool :=
  match s with EmptyString => false | _ => true end.

(** [a or b] on an optional string argument ([None] and the empty string are falsy). *)
Definition str_or (a : option string) (b : string) : string :=
  match a with
  | Some s => if str_truthy s then s else b
  | None => b
  end.

(** Truth value of a decoded JSON document: [bool(v)]. *)
Definition json_truthy (v : json) : bool :=
  match v with
  | JNull => false
  | JBool b => b
  | JInt z => negb (Z.eqb z 0)
  | JStr s => str_truthy s
  | JList l => match l with [] => false | _ => true end
  | JDict d => match d with [] => false | _ => true end
  end.

(** ** models.py *)

Inductive exn : Type :=
| ConnectClientError (msg : string)
| ConnectApiError (msg : string)
| JSONDecodeError
| AttributeError
| TypeError
| KeyError
| ValueError
| OtherError (msg : string).

Inductive result (A : Type) : Type :=
| Ok (a : A)
| Raise (e : exn).
Arguments Ok {A} a.
Arguments Raise {A} e.

(** [IntegratorMode = Literal["source", "sink"]] *)
Inductive IntegratorMode : Type := ModeSource | ModeSink.

Inductive TaskStatus : Type :=
| UNASSIGNED | PAUSED | RUNNING | STOPPED | FAILED | UNKNOWN.

Definition TaskStatus_eqb (a b : TaskStatus) : bool :=
  match a, b with
  | UNASSIGNED, UNASSIGNED | PAUSED, PAUSED | RUNNING, RUNNING
  | STOPPED, STOPPED | FAILED, FAILED | UNKNOWN, UNKNOWN => true
  | _, _ => false
  end.

(** The value of each member of the [str] enum. *)
Definition TaskStatus_value (t : TaskStatus) : string :=
  match t with
  | UNASSIGNED => "UNASSIGNED"
  | PAUSED => "PAUSED"
  | RUNNING => "RUNNING"
  | STOPPED => "STOPPED"
  | FAILED => "FAILED"
  | UNKNOWN => "UNKNOWN"
  end.

Definition TaskStatus_members : list TaskStatus :=
  [UNASSIGNED; PAUSED; RUNNING; STOPPED; FAILED; UNKNOWN].

(** [TaskStatus(state)]: lookup of a member by value; a value that names no
    member raises [ValueError]. *)
Definition TaskStatus_of (state : json) : result TaskStatus :=
  match state with
  | JStr s =>
      match find (fun t => String.eqb s (TaskStatus_value t)) TaskStatus_members with
      | Some t => Ok t
      | None => Raise ValueError
      end
  | _ => Raise ValueError
  end.

(** [ClientContext]: the connect-client relation (its id) and the relation
    data read through the data interface. *)
Record ClientContext : Type := {
  relation : option Z;
  relation_data : Dict.t string
}.

Definition ctx_field (c : ClientContext) (field : string) : string :=
  match relation c with
  | None => EmptyString
  | Some _ =>
      match Dict.get (relation_data c) field with
      | Some v => v
      | None => EmptyString
      end
  end.

Definition username (c : ClientContext) : string := ctx_field c "username".
Definition endpoints (c : ClientContext) : string := ctx_field c "endpoints".
Definition password (c : ClientContext) : string := ctx_field c "password".
Definition plugin_url (c : ClientContext) : string := ctx_field c "plugin-url".

(** [ClientContext.__bool__] *)
Definition ClientContext_bool (c : ClientContext) : bool :=
  match relation c with
  | Some _ => true
  | None => false
  end.

(** ** config.py *)

(** [Literal["both", "source", "sink", "none"]] *)
Inductive option_mode : Type := both | source | sink | none.

Record ConfigOption : Type := {
  json_key : string;
  default : json;
  mode : option_mode;
  configurable : bool;
  description : string
}.

(** [option.mode == "none"] *)
Definition is_none (m : option_mode) : bool :=
  match m with none => true | _ => false end.

(** [option.mode == "both"] *)
Definition is_both (m : option_mode) : bool :=
  match m with both => true | _ => false end.

(** [option.mode == mode] for an integrator mode. *)
Definition mode_eqb (m : option_mode) (im : IntegratorMode) : bool :=
  match m, im with
  | source, ModeSource => true
  | sink, ModeSink => true
  | _, _ => false
  end.

(** An attribute of a formatter class: a declared [ConfigOption] or a
    callable (method).  The class is its [dir()] listing, each name with the
    attribute [getattr] gives for it; [to_dict] casts every field to
    [ConfigOption], and class variables of another kind are not modelled. *)
Inductive class_attr : Type :=
| AttrOption (o : ConfigOption)
| AttrCallable.

Definition formatter_class : Type := list (string * class_attr).

(** [not callable(getattr(cls, v)) and not v.startswith("__")] *)
Definition is_field (entry : string * class_attr) : option (string * ConfigOption) :=
  match entry with
  | (v, AttrOption o) => if startswith v "__" then None else Some (v, o)
  | (_, AttrCallable) => None
  end.

(** The non-special class variables, each with its attribute. *)
Fixpoint field_items (cls : formatter_class) : list (string * ConfigOption) :=
  match cls with
  | [] => []
  | entry :: cls' =>
      match is_field entry with
      | Some f => f :: field_items cls'
      | None => field_items cls'
      end
  end.

(** [BaseConfigFormatter.fields] *)
Definition fields (cls : formatter_class) : list string :=
  map fst (field_items cls).

(** One turn of the loop of [to_dict]. *)
Definition to_dict_step (charm_config : Dict.t json) (m : IntegratorMode)
    (ret : Dict.t json) (field : string * ConfigOption) : Dict.t json :=
  let (k, option) := field in
  if is_none (mode option) then ret
  else if negb (is_both (mode option)) && negb (mode_eqb (mode option) m) then ret
  else if configurable option && Dict.mem charm_config k then
    match Dict.get charm_config k with
    | Some v => Dict.set ret (json_key option) v
    | None => ret
    end
  else Dict.set ret (json_key option) (default option).

(** [BaseConfigFormatter.to_dict] *)
Definition to_dict (cls : formatter_class) (charm_config : Dict.t json)
    (m : IntegratorMode) : Dict.t json :=
  fold_left (to_dict_step charm_config m) (field_items cls) Dict.empty.

(** The option every formatter inherits from [BaseConfigFormatter]. *)
Definition base_mode_option : ConfigOption :=
  {| json_key := "na";
     default := JStr "source";
     mode := none;
     configurable := true;
     description := "Integrator mode, either " ++ dquote ++ "source" ++ dquote
                    ++ " or " ++ dquote ++ "sink" ++ dquote |}.

(** [YAML_TYPE_MAPPER.get(type(v), "string")] *)
Definition yaml_type (v : json) : string :=
  match v with
  | JStr _ => "string"
  | JInt _ => "int"
  | JBool _ => "boolean"
  | _ => "string"
  end.

(** The entry [to_config_yaml] writes for a configurable option. *)
Definition yaml_entry (option : ConfigOption) : Dict.t json :=
  let entry := [("default", default option);
                ("type", JStr (yaml_type (default option)))] in
  if str_truthy (description option)
  then Dict.set entry "description" (JStr (description option))
  else entry.

(** One turn of the loop of [to_config_yaml]. *)
Definition to_config_yaml_step (options : Dict.t (Dict.t json))
    (entry : string * class_attr) : Dict.t (Dict.t json) :=
  let (_attr, attr) := entry in
  if startswith _attr "__" then options
  else match attr with
       | AttrOption option =>
           if negb (configurable option) then options
           else Dict.set options _attr (yaml_entry option)
       | AttrCallable => options
       end.

(** [BaseConfigFormatter.to_config_yaml]: the mapping under ["options"]. *)
Definition to_config_yaml_options (cls : formatter_class) : Dict.t (Dict.t json) :=
  fold_left to_config_yaml_step cls Dict.empty.

(** [BaseConfigFormatter.to_config_yaml] *)
Definition to_config_yaml (cls : formatter_class) : Dict.t (Dict.t (Dict.t json)) :=
  [("options", to_config_yaml_options cls)].

(** ** The world the library acts on *)

Inductive http_method : Type := GET | POST | PUT | PATCH | DELETE.

(** The arguments of one [requests.request] call ([verify=False] always). *)
Record http_request : Type := {
  req_method : http_method;
  req_url : string;
  req_auth : string * string;
  req_json : option json;
  req_timeout : option Z
}.

(** A [requests.Response]: [json_body] is what [response.json()] gives,
    [None] when the body does not decode (the call raises). *)
Record http_response : Type := {
  status_code : Z;
  content : string;
  json_body : option json
}.

Inductive log_level : Type := DEBUG | INFO | ERROR.

(** The unit's bag of the peer relation: the [started] field and the
    [config] secret field.  The secret holds [json.dumps] of a dictionary and
    is read back with [json.loads]; it is kept here as the dictionary. *)
Record peer_unit_data : Type := {
  started_field : option string;
  config_field : option (Dict.t json)
}.

Record world : Type := {
  calls : list http_request;          (* REST calls issued so far, oldest first *)
  logs : list (log_level * string);   (* log records emitted so far *)
  peer : option peer_unit_data        (* [None]: there is no peer relation *)
}.

(** A computation that reads and updates the world and may raise. *)
Definition M (A : Type) : Type := world -> result A * world.

Definition ret {A} (a : A) : M A := fun w => (Ok a, w).

Definition raise {A} (e : exn) : M A := fun w => (Raise e, w).

Definition bind {A B} (m : M A) (k : A -> M B) : M B :=
  fun w =>
    match m w with
    | (Ok a, w') => k a w'
    | (Raise e, w') => (Raise e, w')
    end.

(** A pure computation that may raise. *)
Definition lift {A} (r : result A) : M A := fun w => (r, w).

(** [try: m  except ConnectApiError as e: h e]; any other exception passes. *)
Definition try_except_ConnectApiError {A} (m : M A) (h : string -> M A) : M A :=
  fun w =>
    match m w with
    | (Raise (ConnectApiError msg), w') => h msg w'
    | r => r
    end.

Declare Scope monad_scope.
Delimit Scope monad_scope with monad.
Notation "x <- m ;; k" := (bind m (fun x => k))
  (at level 61, m at next level, right associativity) : monad_scope.
Notation "m ;; k" := (bind m (fun _ => k))
  (at level 61, right associativity) : monad_scope.
Open Scope monad_scope.

(** The world after one more log record. *)
Definition add_log (lvl : log_level) (msg : string) (w : world) : world :=
  {| calls := calls w; logs := (logs w ++ [(lvl, msg)])%list; peer := peer w |}.

(** The world after one more REST call. *)
Definition add_call (rq : http_request) (w : world) : world :=
  {| calls := (calls w ++ [rq])%list; logs := logs w; peer := peer w |}.

Definition log (lvl : log_level) (msg : string) : M unit :=
  fun w => (Ok tt, add_log lvl msg w).

Definition record_call (rq : http_request) : M unit :=
  fun w => (Ok tt, add_call rq w).

Definition get_world : M world := fun w => (Ok w, w).

Definition set_peer (p : option peer_unit_data) : M unit :=
  fun w => (Ok tt, {| calls := calls w; logs := logs w; peer := p |}).

(** [str(n)] for an [int]. *)
Definition str_of_Z (z : Z) : string := NilZero.string_of_int (Z.to_int z).

Definition method_name (m : http_method) : string :=
  match m with
  | GET => "GET" | POST => "POST" | PUT => "PUT" | PATCH => "PATCH" | DELETE => "DELETE"
  end.

(** [response.json()] *)
Definition json_of (r : http_response) : result json :=
  match json_body r with
  | Some v => Ok v
  | None => Raise JSONDecodeError
  end.

(** [v.get(k, dflt)]: only a dictionary has the method. *)
Definition json_get (v : json) (k : string) (dflt : json) : result json :=
  match v with
  | JDict d => Ok (match Dict.get d k with Some x => x | None => dflt end)
  | _ => Raise AttributeError
  end.

(** [needle in v] for a string [needle]: substring of a string, element of a
    list, key of a dictionary; anything else is not a container. *)
Definition json_in (needle : string) (v : json) : result bool :=
  match v with
  | JStr s => Ok (str_contains needle s)
  | JList l =>
      Ok (existsb (fun x => match x with JStr s => String.eqb needle s | _ => false end) l)
  | JDict d => Ok (Dict.mem d needle)
  | _ => Raise TypeError
  end.

(** [v[0]] on a truthy document. *)
Definition json_first (v : json) : result json :=
  match v with
  | JList (x :: _) => Ok x
  | JStr (String c _) => Ok (JStr (String c EmptyString))
  | JList [] => Raise (OtherError "IndexError")
  | JStr EmptyString => Raise (OtherError "IndexError")
  | JDict _ => Raise KeyError
  | _ => Raise TypeError
  end.

(** ** helpers.py *)

Module DataInterfacesHelpers.

(** The relations of the charm: for a relation name, the data
    [RequirerData.as_dict] gives for it; no binding when the unit has no
    such relation. *)
Definition relations : Type := Dict.t (Dict.t string).

(** [DataInterfacesHelpers.fetch_all_relation_data] *)
Definition fetch_all_relation_data (rels : relations) (relation_name : string)
    : Dict.t string :=
  match Dict.get rels relation_name with
  | None => []
  | Some data => data
  end.

(** [_data.get(key, empty)] *)
Definition field (_data : Dict.t string) (key : string) : string :=
  match Dict.get _data key with
  | Some v => v
  | None => EmptyString
  end.

(** The inner loop of [check_data_interfaces_ready]; [false] when the
    method returns from it. *)
Fixpoint check_keys (relation_name : string) (_data : Dict.t string)
    (check_for : list string) : M bool :=
  match check_for with
  | [] => ret true
  | key :: rest =>
      if negb (str_truthy (field _data key)) then
        log INFO ("Data interfaces readiness check: relation " ++ relation_name
                  ++ " - " ++ key ++ " not set yet.") ;;
        ret false
      else check_keys relation_name _data rest
  end.

(** [DataInterfacesHelpers.check_data_interfaces_ready] *)
Fixpoint check_data_interfaces_ready (rels : relations) (relation_names : list string)
    (check_for : list string) : M bool :=
  match relation_names with
  | [] => ret true
  | relation_name :: rest =>
      let _data := fetch_all_relation_data rels relation_name in
      match _data with
      | [] => ret false
      | _ =>
          continue <- check_keys relation_name _data check_for ;;
          if continue : bool
          then check_data_interfaces_ready rels rest check_for
          else ret false
      end
  end.

(** The default of [check_for]. *)
Definition default_check_for : list string := ["endpoints"; "username"; "password"].

End DataInterfacesHelpers.

(** ** connect.py *)

Module ConnectClient.

Record t : Type := {
  client_context : ClientContext;
  connector_name : string
}.

(** [ConnectClient.endpoint] *)
Definition endpoint (self : t) : result string :=
  let _endpoints := str_split "," (endpoints (client_context self)) in
  if (length _endpoints <? 1)%nat
  then Raise (ConnectClientError "No connect endpoints available.")
  else match _endpoints with
       | e :: _ => Ok e
       | [] => Raise (OtherError "IndexError")
       end.

Section Verbs.

(** [requests.request]: what the HTTP library answers to a call, given
    the calls made before it: a response, or an exception (its text). *)
Variable transport : list http_request -> http_request -> string + http_response.

(** How an f-string renders [response.content], a [bytes] object. *)
Variable repr_bytes : string -> string.

(** How an f-string renders a decoded JSON document that is neither an
    [int] nor a [str]. *)
Variable repr_json : json -> string.

(** [f"{v}"] *)
Definition format_json (v : json) : string :=
  match v with
  | JInt z => str_of_Z z
  | JStr s => s
  | _ => repr_json v
  end.

(** [ConnectClient.request] *)
Definition request (self : t) (method : http_method) (api : string)
    (body : option json) (timeout : option Z) : M http_response :=
  ep <- lift (endpoint self) ;;
  let url := ep ++ "/" ++ api in
  let auth := (username (client_context self), password (client_context self)) in
  let rq := {| req_method := method; req_url := url; req_auth := auth;
               req_json := body; req_timeout := timeout |} in
  w <- get_world ;;
  record_call rq ;;
  match transport (calls w) rq with
  | inl e => raise (ConnectApiError ("Connect API call /" ++ api ++ " failed: " ++ e))
  | inr response =>
      log DEBUG (method_name method ++ " - " ++ url ++ ": " ++ repr_bytes (content response)) ;;
      ret response
  end.

(** [response.status_code == 409 and
     "already exists" in response.json().get("message", empty)] *)
Definition already_exists (response : http_response) : result bool :=
  if (status_code response =? 409)%Z then
    match json_of response with
    | Raise e => Raise e
    | Ok body =>
        match json_get body "message" (JStr EmptyString) with
        | Raise e => Raise e
        | Ok message => json_in "already exists" message
        end
    end
  else Ok false.

(** [ConnectClient.start_connector] *)
Definition start_connector (self : t) (connector_config : Dict.t json)
    (connector_name : option string) : M unit :=
  let _json := JDict [("name", JStr (str_or connector_name (ConnectClient.connector_name self)));
                      ("config", JDict connector_config)] in
  response <- request self POST "connectors" (Some _json) None ;;
  if (status_code response =? 201)%Z then ret tt
  else
    exists_ <- lift (already_exists response) ;;
    if exists_ : bool then
      log INFO "Connector has already been submitted, skipping..." ;;
      ret tt
    else
      log ERROR (repr_bytes (content response)) ;;
      raise (ConnectApiError
               ("Unable to start the connector, details: " ++ repr_bytes (content response))).

(** [ConnectClient.resume_connector] *)
Definition resume_connector (self : t) (connector_name : option string) : M unit :=
  response <- request self PUT
    ("connectors/" ++ str_or connector_name (ConnectClient.connector_name self) ++ "/resume")
    None None ;;
  if (status_code response =? 202)%Z then ret tt
  else
    log ERROR (repr_bytes (content response)) ;;
    raise (ConnectApiError
             ("Unable to resume the connector, details: " ++ repr_bytes (content response))).

(** [ConnectClient.stop_connector] *)
Definition stop_connector (self : t) (connector_name : option string) : M unit :=
  response <- request self PUT
    ("connectors/" ++ str_or connector_name (ConnectClient.connector_name self) ++ "/stop")
    None None ;;
  if negb (status_code response =? 204)%Z then
    raise (ConnectApiError
             ("Unable to stop the connector, details: " ++ repr_bytes (content response)))
  else ret tt.

(** [ConnectClient.delete_connector] *)
Definition delete_connector (self : t) (connector_name : option string) : M unit :=
  response <- request self DELETE
    ("connectors/" ++ str_or connector_name (ConnectClient.connector_name self))
    None None ;;
  if negb (status_code response =? 204)%Z then
    raise (ConnectApiError
             ("Unable to remove the connector, details: " ++ repr_bytes (content response)))
  else ret tt.

(** [ConnectClient.patch_connector] *)
Definition patch_connector (self : t) (connector_config : Dict.t json)
    (connector_name : option string) : M unit :=
  let cname := str_or connector_name (ConnectClient.connector_name self) in
  response <- request self PATCH ("connectors/" ++ cname ++ "/config")
    (Some (JDict connector_config)) None ;;
  if (status_code response =? 200)%Z then
    log DEBUG ("Connector " ++ cname ++ " patched: " ++ repr_json (JDict connector_config)) ;;
    ret tt
  else
    log ERROR (repr_bytes (content response)) ;;
    raise (ConnectApiError
             ("Unable to patch the connector, details: " ++ repr_bytes (content response))).

(** [response.status_code not in (200, 404)] *)
Definition not_200_404 (response : http_response) : bool :=
  negb ((status_code response =? 200)%Z || (status_code response =? 404)%Z).

(** [ConnectClient.task_status] *)
Definition task_status (self : t) (connector_name : option string) : M TaskStatus :=
  let connector_name := str_or connector_name (ConnectClient.connector_name self) in
  response <- request self GET ("connectors/" ++ connector_name ++ "/tasks")
    None (Some 10%Z) ;;
  if not_200_404 response then
    log ERROR ("Unable to fetch tasks status, details: " ++ repr_bytes (content response)) ;;
    ret UNKNOWN
  else if (status_code response =? 404)%Z then ret UNASSIGNED
  else
    tasks <- lift (json_of response) ;;
    if negb (json_truthy tasks) then ret UNASSIGNED
    else
      task0 <- lift (json_first tasks) ;;
      id <- lift (json_get task0 "id" (JDict [])) ;;
      task_id <- lift (json_get id "task" (JInt 0)) ;;
      status_response <- request self GET
        ("connectors/" ++ connector_name ++ "/tasks/" ++ format_json task_id ++ "/status")
        None (Some 10%Z) ;;
      if (status_code status_response =? 404)%Z then ret UNASSIGNED
      else if negb (status_code status_response =? 200)%Z then
        log ERROR ("Unable to fetch tasks status, details: "
                   ++ repr_bytes (content status_response)) ;;
        ret UNKNOWN
      else
        body <- lift (json_of status_response) ;;
        state <- lift (json_get body "state" (JStr "UNASSIGNED")) ;;
        lift (TaskStatus_of state).

(** [ConnectClient.connector_status] *)
Definition connector_status (self : t) : M TaskStatus :=
  r <- try_except_ConnectApiError
         (response <- request self GET
            ("connectors/" ++ ConnectClient.connector_name self ++ "/status")
            None (Some 10%Z) ;;
          ret (Some response))
         (fun e => log ERROR e ;; ret None) ;;
  match r with
  | None => ret UNKNOWN
  | Some response =>
      if not_200_404 response then
        log ERROR ("Unable to fetch connector status, details: "
                   ++ repr_bytes (content response)) ;;
        ret UNKNOWN
      else if (status_code response =? 404)%Z then ret UNASSIGNED
      else
        status_response <- lift (json_of response) ;;
        connector <- lift (json_get status_response "connector" (JDict [])) ;;
        state <- lift (json_get connector "state" (JStr "UNASSIGNED")) ;;
        lift (TaskStatus_of state)
  end.

End Verbs.

End ConnectClient.

(** ** base.py *)

Module BaseIntegrator.

(** An integrator instance: the class variables of the subclass, the charm
    configuration, the connect-client relation, and the two hooks the
    subclass supplies. *)
Record t : Type := {
  name : string;
  formatter : formatter_class;
  self_mode : IntegratorMode;         (* [self.mode] *)
  config : Dict.t json;               (* [self.config], the charm configuration *)
  _client_context : ClientContext;
  model_uuid : string;
  setup : M unit;
  teardown : M unit
}.

(** [BaseIntegrator.connector_unique_name] *)
Definition connector_unique_name (self : t) : string :=
  match relation (_client_context self) with
  | None => EmptyString
  | Some relation_id =>
      name self ++ "_r" ++ str_of_Z relation_id ++ "_" ++ str_remove "-" (model_uuid self)
  end.

(** [BaseIntegrator._client] *)
Definition _client (self : t) : ConnectClient.t :=
  {| ConnectClient.client_context := _client_context self;
     ConnectClient.connector_name := connector_unique_name self |}.

(** [BaseIntegrator.started], the getter. *)
Definition started (w : world) : bool :=
  match peer w with
  | None => false
  | Some p =>
      match started_field p with
      | Some s => str_truthy s
      | None => false
      end
  end.

(** [BaseIntegrator.started], the setter. *)
Definition set_started (val : bool) : M unit :=
  w <- get_world ;;
  match peer w with
  | None => ret tt
  | Some p =>
      if val
      then set_peer (Some {| started_field := Some "true"; config_field := config_field p |})
      else set_peer (Some {| started_field := None; config_field := config_field p |})
  end.

(** [BaseIntegrator.dynamic_config] *)
Definition dynamic_config (w : world) : Dict.t json :=
  match peer w with
  | None => []
  | Some p =>
      match config_field p with
      | Some d => d
      | None => []
      end
  end.

Section Controller.

Variable transport : list http_request -> http_request -> string + http_response.
Variable repr_bytes : string -> string.
Variable repr_json : json -> string.

(** The reserved marker of a multi-connector key; [models.py] is to
    define it. *)
Variable MULTICONNECTOR_PREFIX : string.

(** [BaseIntegrator.connector_names] *)
Definition connector_names (w : world) : list string :=
  filter (fun name => startswith name MULTICONNECTOR_PREFIX)
         (Dict.keys (dynamic_config w)).

(** One connector of the list form of [configure]. *)
Definition configure_one (self : t) (updated_config : Dict.t json)
    (connector_config : Dict.t json) : M (Dict.t json) :=
  match Dict.get connector_config "name" with
  | None =>
      log ERROR "List of connectors should provide a 'name' key to differentiate them" ;;
      raise KeyError
  | Some n =>
      let connector_id :=
        MULTICONNECTOR_PREFIX ++ "_" ++ ConnectClient.format_json repr_json n
          ++ "_" ++ connector_unique_name self in
      ret (Dict.set updated_config connector_id (JDict (Dict.remove connector_config "name")))
  end.

Fixpoint configure_list (self : t) (updated_config : Dict.t json)
    (configs : list (Dict.t json)) : M (Dict.t json) :=
  match configs with
  | [] => ret updated_config
  | connector_config :: rest =>
      updated_config' <- configure_one self updated_config connector_config ;;
      configure_list self updated_config' rest
  end.

(** [BaseIntegrator.configure]: one dictionary, or a list of them. *)
Definition configure (self : t) (cfg : Dict.t json + list (Dict.t json)) : M unit :=
  w <- get_world ;;
  match peer w with
  | None => ret tt
  | Some p =>
      updated_config <-
        match cfg with
        | inl d => ret (Dict.merge (dynamic_config w) d)
        | inr l => configure_list self (dynamic_config w) l
        end ;;
      set_peer (Some {| started_field := started_field p;
                        config_field := Some updated_config |})
  end.

(** [self.dynamic_config[connector_name]], as the right operand of [|]. *)
Definition overrides_of (w : world) (connector_name : string) : result (Dict.t json) :=
  match Dict.get (dynamic_config w) connector_name with
  | None => Raise KeyError
  | Some (JDict o) => Ok o
  | Some _ => Raise TypeError
  end.

(** The body of the [for] loop of [start_connector]; [false] when the
    handler returns from the method. *)
Definition start_one (self : t) (connector_name : string) : M bool :=
  try_except_ConnectApiError
    (let base := to_dict (formatter self) (config self) ModeSource in
     w <- get_world ;;
     o <- lift (overrides_of w connector_name) ;;
     ConnectClient.start_connector transport repr_bytes (_client self)
       (Dict.merge base o) (Some connector_name) ;;
     ret true)
    (fun e => log ERROR ("Connector start failed, details: " ++ e) ;; ret false).

Fixpoint start_each (self : t) (names : list string) : M bool :=
  match names with
  | [] => ret true
  | connector_name :: rest =>
      continue <- start_one self connector_name ;;
      if continue : bool then start_each self rest else ret false
  end.

(** The single connector case of [start_connector]. *)
Definition start_single (self : t) : M bool :=
  try_except_ConnectApiError
    (let base := to_dict (formatter self) (config self) ModeSource in
     w <- get_world ;;
     ConnectClient.start_connector transport repr_bytes (_client self)
       (Dict.merge base (dynamic_config w)) None ;;
     ret true)
    (fun e => log ERROR ("Connector start failed, details: " ++ e) ;; ret false).

(** [BaseIntegrator.start_connector] *)
Definition start_connector (self : t) : M unit :=
  w <- get_world ;;
  if started w then log INFO "Connector has already started"
  else
    setup self ;;
    w1 <- get_world ;;
    continue <- start_each self (connector_names w1) ;;
    if continue : bool then
      w2 <- get_world ;;
      continue' <- match connector_names w2 with
                   | [] => start_single self
                   | _ => ret true
                   end ;;
      if continue' : bool then set_started true else ret tt
    else ret tt.

(** [BaseIntegrator.connector_status] *)
Definition connector_status (self : t) : M TaskStatus :=
  ConnectClient.connector_status transport repr_bytes (_client self).

(** [BaseIntegrator.maybe_resume_connector] *)
Definition maybe_resume_connector (self : t) : M unit :=
  status <- connector_status self ;;
  if negb (TaskStatus_eqb status STOPPED) then ret tt
  else
    try_except_ConnectApiError
      (ConnectClient.resume_connector transport repr_bytes (_client self) None)
      (fun e => log ERROR ("Unable to restart/resume the connector, details: " ++ e)).

(** The body of the [for] loop of [patch_connector]. *)
Definition patch_one (self : t) (connector_name : string) : M bool :=
  try_except_ConnectApiError
    (let base := to_dict (formatter self) (config self) ModeSource in
     w <- get_world ;;
     o <- lift (overrides_of w connector_name) ;;
     ConnectClient.patch_connector transport repr_bytes repr_json (_client self)
       (Dict.merge base o) (Some connector_name) ;;
     ret true)
    (fun e => log ERROR ("Connector start failed, details: " ++ e) ;; ret false).

Fixpoint patch_each (self : t) (names : list string) : M bool :=
  match names with
  | [] => ret true
  | connector_name :: rest =>
      continue <- patch_one self connector_name ;;
      if continue : bool then patch_each self rest else ret false
  end.

(** The single connector case of [patch_connector]. *)
Definition patch_single (self : t) : M bool :=
  try_except_ConnectApiError
    (let base := to_dict (formatter self) (config self) ModeSource in
     w <- get_world ;;
     ConnectClient.patch_connector transport repr_bytes repr_json (_client self)
       (Dict.merge base (dynamic_config w)) None ;;
     ret true)
    (fun e => log ERROR ("Connector start failed, details: " ++ e) ;; ret false).

(** [BaseIntegrator.patch_connector] *)
Definition patch_connector (self : t) : M unit :=
  w <- get_world ;;
  if negb (started w) then log INFO "Connector is not started yet, skipping update."
  else
    setup self ;;
    w1 <- get_world ;;
    continue <- patch_each self (connector_names w1) ;;
    if continue : bool then
      w2 <- get_world ;;
      continue' <- match connector_names w2 with
                   | [] => patch_single self
                   | _ => ret true
                   end ;;
      if continue' : bool then set_started true else ret tt
    else ret tt.

(** [BaseIntegrator.task_status] *)
Definition task_status (self : t) : M TaskStatus :=
  w <- get_world ;;
  if negb (started w) then ret UNASSIGNED
  else
    match connector_names w with
    | first :: _ =>
        ConnectClient.task_status transport repr_bytes repr_json (_client self) (Some first)
    | [] =>
        ConnectClient.task_status transport repr_bytes repr_json (_client self) None
    end.

(** [BaseIntegrator._on_relation_broken] *)
Definition _on_relation_broken (self : t) : M unit :=
  teardown self ;;
  set_started false.

(** [BaseIntegrator._on_integration_created]: [health_check] is the answer
    of [self.server.health_check()], [ready] the value of [self.ready];
    the result tells whether the event was deferred. *)
Definition _on_integration_created (self : t) (health_check ready : bool) : M bool :=
  if negb health_check || negb ready then
    log DEBUG "Integrator not ready yet, deferring integration_created event..." ;;
    ret true
  else
    log INFO ("Starting " ++ name self ++ " connector...") ;;
    start_connector self ;;
    w <- get_world ;;
    if negb (started w) then ret true else ret false.

End Controller.

End BaseIntegrator.

(** ** Notions the properties are stated with *)

(** The endpoint a client talks to: the first piece of the endpoint list. *)
Definition first_endpoint (c : ClientContext) : string :=
  hd EmptyString (str_split "," (endpoints c)).

(** The [requests.request] call a client makes for a verb. *)
Definition client_request (self : ConnectClient.t) (method : http_method) (api : string)
    (body : option json) (timeout : option Z) : http_request :=
  {| req_method := method;
     req_url := first_endpoint (ConnectClient.client_context self) ++ "/" ++ api;
     req_auth := (username (ConnectClient.client_context self),
                  password (ConnectClient.client_context self));
     req_json := body;
     req_timeout := timeout |}.

(** The create call: [POST connectors] with [{"name": ..., "config": ...}]. *)
Definition create_request (self : ConnectClient.t) (connector_config : Dict.t json)
    (connector_name : option string) : http_request :=
  client_request self POST "connectors"
    (Some (JDict [("name", JStr (str_or connector_name (ConnectClient.connector_name self)));
                  ("config", JDict connector_config)]))
    None.

(** The body of a response has a [message] that indicates "already exists":
    the body decodes to an object, and the text occurs in its message (a
    string), or is an element (a list) or a key (an object) of it. *)
Definition says_already_exists (response : http_response) : Prop :=
  exists d, json_body response = Some (JDict d) /\
    match Dict.get d "message" with
    | Some (JStr s) => str_contains "already exists" s = true
    | Some (JList l) => In (JStr "already exists") l
    | Some (JDict m) => Dict.mem m "already exists" = true
    | _ => False
    end.

(** The response makes a create succeed: 201, or 409 "already exists". *)
Definition accepted (response : http_response) : Prop :=
  status_code response = 201%Z \/
  (status_code response = 409%Z /\ says_already_exists response).

(** A server that accepts every create it is sent. *)
Definition accepts_creates
    (transport : list http_request -> http_request -> string + http_response) : Prop :=
  forall history rq, exists response,
    transport history rq = inr response /\ accepted response.

(** The override mapping the dynamic configuration holds for a connector. *)
Definition override_mapping (dynamic_config : Dict.t json) (connector_name : string)
    : Dict.t json :=
  match Dict.get dynamic_config connector_name with
  | Some (JDict o) => o
  | _ => []
  end.

(** The instance with another formatter class, and with another mode. *)
Definition with_formatter (self : BaseIntegrator.t) (cls : formatter_class)
    : BaseIntegrator.t :=
  {| BaseIntegrator.name := BaseIntegrator.name self;
     BaseIntegrator.formatter := cls;
     BaseIntegrator.self_mode := BaseIntegrator.self_mode self;
     BaseIntegrator.config := BaseIntegrator.config self;
     BaseIntegrator._client_context := BaseIntegrator._client_context self;
     BaseIntegrator.model_uuid := BaseIntegrator.model_uuid self;
     BaseIntegrator.setup := BaseIntegrator.setup self;
     BaseIntegrator.teardown := BaseIntegrator.teardown self |}.

Definition with_mode (self : BaseIntegrator.t) (m : IntegratorMode) : BaseIntegrator.t :=
  {| BaseIntegrator.name := BaseIntegrator.name self;
     BaseIntegrator.formatter := BaseIntegrator.formatter self;
     BaseIntegrator.self_mode := m;
     BaseIntegrator.config := BaseIntegrator.config self;
     BaseIntegrator._client_context := BaseIntegrator._client_context self;
     BaseIntegrator.model_uuid := BaseIntegrator.model_uuid self;
     BaseIntegrator.setup := BaseIntegrator.setup self;
     BaseIntegrator.teardown := BaseIntegrator.teardown self |}.

(** The option is written by [to_dict] in mode [m]: its own mode is
    ["both"] or is [m]. *)
Definition applies (o : ConfigOption) (m : IntegratorMode) : bool :=
  is_both (mode o) || mode_eqb (mode o) m.

(** The class without its sink-only options. *)
Definition drop_sink (cls : formatter_class) : formatter_class :=
  filter (fun entry =>
            match snd entry with
            | AttrOption o => match mode o with sink => false | _ => true end
            | AttrCallable => true
            end) cls.

(** The formatter of the test charm, [tests/app_charm/src/integrator.py], as
    [dir()] lists it (methods included; the dunder attributes that are not
    options are dropped by the name test of [fields] and are left out). *)
Definition ConfigFormatter : formatter_class :=
  [ ("fields", AttrCallable);
    ("file_path", AttrOption
       {| json_key := "file";
          default := JStr "/var/snap/charmed-kafka/common/var/log/connect/test.jsonl";
          mode := both; configurable := true; description := EmptyString |});
    ("key_converter", AttrOption
       {| json_key := "key.converter";
          default := JStr "org.apache.kafka.connect.storage.StringConverter";
          mode := sink; configurable := false; description := EmptyString |});
    ("mode", AttrOption base_mode_option);
    ("tasks_max", AttrOption
       {| json_key := "tasks.max"; default := JInt 1;
          mode := both; configurable := false; description := EmptyString |});
    ("to_config_yaml", AttrCallable);
    ("to_dict", AttrCallable);
    ("topic", AttrOption
       {| json_key := "topic"; default := JStr "test";
          mode := source; configurable := true; description := EmptyString |});
    ("topic_partitions", AttrOption
       {| json_key := "topic.creation.default.partitions"; default := JInt 10;
          mode := both; configurable := false; description := EmptyString |});
    ("topic_replication_factor", AttrOption
       {| json_key := "topic.creation.default.replication.factor"; default := JInt (-1);
          mode := both; configurable := false; description := EmptyString |});
    ("value_converter", AttrOption
       {| json_key := "value.converter";
          default := JStr "org.apache.kafka.connect.json.JsonConverter";
          mode := both; configurable := false; description := EmptyString |}) ].

(** A formatter that declares the connector class once per mode, under one
    wire key. *)
Definition sink_class : ConfigOption :=
  {| json_key := "connector.class";
     default := JStr "org.apache.kafka.connect.file.FileStreamSinkConnector";
     mode := sink; configurable := false; description := EmptyString |}.

Definition source_class : ConfigOption :=
  {| json_key := "connector.class";
     default := JStr "org.apache.kafka.connect.file.FileStreamSourceConnector";
     mode := source; configurable := false; description := EmptyString |}.

Definition PerModeClassFormatter : formatter_class :=
  [ ("mode", AttrOption base_mode_option);
    ("sink_class", AttrOption sink_class);
    ("source_class", AttrOption source_class) ].

(** The options of the test formatter the examples look at. *)
Definition tasks_max : ConfigOption :=
  {| json_key := "tasks.max"; default := JInt 1;
     mode := both; configurable := false; description := EmptyString |}.

Definition topic : ConfigOption :=
  {| json_key := "topic"; default := JStr "test";
     mode := source; configurable := true; description := EmptyString |}.

(** ** Concrete worlds for the examples *)

(** A rendering of [bytes] and of JSON containers, for the examples. *)
Definition repr_bytes_plain (b : string) : string := "b'" ++ b ++ "'".
Definition repr_json_plain (v : json) : string := "<json>".

Definition related_context : ClientContext :=
  {| relation := Some 7%Z;
     relation_data := [("endpoints", "http://10.0.0.5:8083,http://10.0.0.6:8083");
                       ("username", "integrator"); ("password", "secret")] |}.

(** No connect-client relation: every field of the context reads empty. *)
Definition unrelated_context : ClientContext :=
  {| relation := None; relation_data := [] |}.

Definition related_client : ConnectClient.t :=
  {| ConnectClient.client_context := related_context;
     ConnectClient.connector_name := "test-integrator_r7_0f1e" |}.

Definition unrelated_client : ConnectClient.t :=
  {| ConnectClient.client_context := unrelated_context;
     ConnectClient.connector_name := EmptyString |}.

(** A server that answers 201 to everything. *)
Definition transport_created : list http_request -> http_request -> string + http_response :=
  fun _ _ => inr {| status_code := 201; content := "{}"; json_body := Some (JDict []) |}.

(** A server that cannot be reached. *)
Definition transport_refused : list http_request -> http_request -> string + http_response :=
  fun _ _ => inl "Connection refused".

(** A server that answers 500 to everything. *)
Definition transport_error : list http_request -> http_request -> string + http_response :=
  fun _ _ => inr {| status_code := 500; content := "boom"; json_body := None |}.

(** A server whose connector is restarting: Kafka Connect reports the state
    [RESTARTING], which [TaskStatus] does not list. *)
Definition transport_restarting : list http_request -> http_request -> string + http_response :=
  fun _ _ => inr {| status_code := 200;
                    content := "{" ++ dquote ++ "connector" ++ dquote ++ ": {"
                               ++ dquote ++ "state" ++ dquote ++ ": "
                               ++ dquote ++ "RESTARTING" ++ dquote ++ "}}";
                    json_body := Some (JDict [("connector",
                                               JDict [("state", JStr "RESTARTING")])]) |}.

(** A unit with a peer relation and nothing stored yet. *)
Definition fresh_world : world :=
  {| calls := []; logs := [];
     peer := Some {| started_field := None; config_field := None |} |}.

(** The create calls a pass over the connector identifiers [names] is to
    issue, in order: one per identifier, each with the formatter output for
    source mode merged with the identifier's override mapping. *)
Definition creates_for (self : BaseIntegrator.t) (dynamic_config : Dict.t json)
    (names : list string) : list http_request :=
  map (fun n =>
         create_request (BaseIntegrator._client self)
           (Dict.merge
              (to_dict (BaseIntegrator.formatter self) (BaseIntegrator.config self) ModeSource)
              (override_mapping dynamic_config n))
           (Some n))
      names.

(** The resume call of the controller. *)
Definition resume_request (self : BaseIntegrator.t) : http_request :=
  client_request (BaseIntegrator._client self) PUT
    ("connectors/" ++ BaseIntegrator.connector_unique_name self ++ "/resume") None None.

(** The marker used in the examples for multi-connector keys. *)
Definition example_prefix : string := "multiconnector".

(** The integrator of the test charm, before its hooks are attached. *)
Definition Integrator_class (m : IntegratorMode) (c : ClientContext) : BaseIntegrator.t :=
  {| BaseIntegrator.name := "test-integrator";
     BaseIntegrator.formatter := ConfigFormatter;
     BaseIntegrator.self_mode := m;
     BaseIntegrator.config := [("file_path", JStr "/tmp/test.jsonl");
                               ("topic", JStr "source_test");
                               ("tasks_max", JInt 4)];
     BaseIntegrator._client_context := c;
     BaseIntegrator.model_uuid := "0f1e2d3c-4b5a-6978";
     BaseIntegrator.setup := ret tt;
     BaseIntegrator.teardown := ret tt |}.

Definition with_setup (self : BaseIntegrator.t) (hook : M unit) : BaseIntegrator.t :=
  {| BaseIntegrator.name := BaseIntegrator.name self;
     BaseIntegrator.formatter := BaseIntegrator.formatter self;
     BaseIntegrator.self_mode := BaseIntegrator.self_mode self;
     BaseIntegrator.config := BaseIntegrator.config self;
     BaseIntegrator._client_context := BaseIntegrator._client_context self;
     BaseIntegrator.model_uuid := BaseIntegrator.model_uuid self;
     BaseIntegrator.setup := hook;
     BaseIntegrator.teardown := BaseIntegrator.teardown self |}.

(** [Integrator] of the test charm: [setup] configures the connector class
    that fits the mode. *)
Definition Integrator (m : IntegratorMode) (c : ClientContext) : BaseIntegrator.t :=
  with_setup (Integrator_class m c)
    (BaseIntegrator.configure repr_json_plain example_prefix (Integrator_class m c)
       (inl [("connector.class",
              JStr (match m with
                    | ModeSource => "org.apache.kafka.connect.file.FileStreamSourceConnector"
                    | ModeSink => "org.apache.kafka.connect.file.FileStreamSinkConnector"
                    end))])).

(** An integrator whose [setup] declares two connectors, [a] and [b]. *)
Definition TwoConnectors : BaseIntegrator.t :=
  with_setup (Integrator_class ModeSource related_context)
    (BaseIntegrator.configure repr_json_plain example_prefix
       (Integrator_class ModeSource related_context)
       (inr [ [("name", JStr "a"); ("topic", JStr "topic_a")];
              [("name", JStr "b"); ("tasks.max", JInt 2)] ])).

(** The [config] entry of the body of a create call. *)
Definition payload_of (rq : http_request) : option json :=
  match req_json rq with
  | Some body =>
      match body with
      | JDict d => Dict.get d "config"
      | _ => None
      end
  | None => None
  end.

(** A server whose connector is in [state], and which accepts a resume. *)
Definition transport_in_state (state : string)
    : list http_request -> http_request -> string + http_response :=
  fun _ rq =>
    match req_method rq with
    | GET => inr {| status_code := 200; content := state;
                    json_body := Some (JDict [("connector", JDict [("state", JStr state)])]) |}
    | _ => inr {| status_code := 202; content := EmptyString; json_body := None |}
    end.

(** What the HTTP library does with a URL that has no scheme. *)
Definition transport_no_scheme : list http_request -> http_request -> string + http_response :=
  fun _ _ => inl "Invalid URL '/connectors': No scheme supplied.".

(** A server with one task, which is restarting: the first read lists the
    task, the second gives its status. *)
Definition transport_task_restarting
    : list http_request -> http_request -> string + http_response :=
  fun history _ =>
    match history with
    | [] => inr {| status_code := 200; content := "[...]";
                   json_body := Some (JList [JDict [("id", JDict [("connector", JStr "c");
                                                                  ("task", JInt 0)])]]) |}
    | _ => inr {| status_code := 200; content := "{...}";
                  json_body := Some (JDict [("id", JInt 0); ("state", JStr "RESTARTING");
                                            ("worker_id", JStr "10.0.0.5:8083")]) |}
    end.

(** The charm configuration juju builds from the [config.yaml] that
    [to_config_yaml] exports when the operator sets nothing: every exported
    option at its [default] entry. *)
Definition yaml_defaults (cls : formatter_class) : Dict.t json :=
  map (fun entry => (fst entry,
                     match Dict.get (snd entry) "default" with
                     | Some v => v
                     | None => JNull
                     end))
      (to_config_yaml_options cls).

(** What a verb with one success status does with the answer to its call
    [rq]: a failure of the transport is a [ConnectApiError]; a response makes
    the verb return exactly when its status is [code], and otherwise raise a
    [ConnectApiError] made of [failure] and the response body.  In every case
    the call is the one call issued and the peer data is left alone. *)
Definition verb_outcome
    (transport : list http_request -> http_request -> string + http_response)
    (repr_bytes : string -> string) (w : world) (rq : http_request) (code : Z)
    (failure : string) (run : result unit * world) : Prop :=
  calls (snd run) = (calls w ++ [rq])%list
  /\ peer (snd run) = peer w
  /\ match transport (calls w) rq with
     | inl e => exists msg, fst run = Raise (ConnectApiError msg)
     | inr response =>
         (fst run = Ok tt <-> status_code response = code)
         /\ (status_code response <> code ->
             fst run = Raise (ConnectApiError (failure ++ repr_bytes (content response))))
     end.

(** A status read: a [GET] with no body and the ten seconds timeout. *)
Definition status_read (self : ConnectClient.t) (rq : http_request) : Prop :=
  exists api, rq = client_request self GET api None (Some 10%Z).




(** The call is a create call of the client of [self]. *)
Definition is_create (self : BaseIntegrator.t) (rq : http_request) : Prop :=
  exists connector_config connector_name,
    rq = create_request (BaseIntegrator._client self) connector_config connector_name.

Definition transport_ok : list http_request -> http_request -> string + http_response :=
  fun _ _ => inr {| status_code := 200; content := "{}"; json_body := Some (JDict []) |}.

(** A unit with a peer relation whose connector is started. *)
Definition started_world : world :=
  {| calls := []; logs := [];
     peer := Some {| started_field := Some "true"; config_field := None |} |}.

(** A proxy in front of the server that answers 409 with a page that is not
    JSON. *)
Definition transport_409_html : list http_request -> http_request -> string + http_response :=
  fun _ _ => inr {| status_code := 409; content := "<html>Conflict</html>";
                    json_body := None |}.

(** A server whose one task is listed with a number as its [id]. *)
Definition transport_task_numeric_id
    : list http_request -> http_request -> string + http_response :=
  fun _ _ => inr {| status_code := 200; content := "[...]";
                    json_body := Some (JList [JDict [("id", JInt 5)]]) |}.

(** A formatter that declares one wire key twice, for both modes: under a
    fixed option and under an option the operator may set. *)
Definition batch_fixed : ConfigOption :=
  {| json_key := "batch.size"; default := JInt 100;
     mode := both; configurable := false; description := EmptyString |}.

Definition batch_size : ConfigOption :=
  {| json_key := "batch.size"; default := JInt 100;
     mode := both; configurable := true; description := EmptyString |}.

Definition SharedKeyFormatter : formatter_class :=
  [ ("batch_fixed", AttrOption batch_fixed);
    ("batch_size", AttrOption batch_size);
    ("fields", AttrCallable);
    ("mode", AttrOption base_mode_option);
    ("to_config_yaml", AttrCallable);
    ("to_dict", AttrCallable) ].

(** The connector configuration a call carries to the server: the [config]
    entry of the body of a create, the body of a patch. *)
Definition wire_payload (rq : http_request) : option (Dict.t json) :=
  match req_method rq, req_json rq with
  | POST, Some (JDict body) =>
      match Dict.get body "config" with
      | Some (JDict connector_config) => Some connector_config
      | _ => None
      end
  | PATCH, Some (JDict connector_config) => Some connector_config
  | _, _ => None
  end.




(** An integrator in sink mode, with the formatter of the test charm, whose
    [setup] configures the key converter. *)
Definition KeyConverterIntegrator : BaseIntegrator.t :=
  with_setup (Integrator_class ModeSink related_context)
    (BaseIntegrator.configure repr_json_plain example_prefix
       (Integrator_class ModeSink related_context)
       (inl [("key.converter", JStr "org.apache.kafka.connect.json.JsonConverter")])).

(** * Properties *)

(** ** Dictionaries *)

Section DictFacts.

Context {V : Type}.
Implicit Types (d : Dict.t V) (k : string) (v : V).

Lemma get_set_same d k v : Dict.get (Dict.set d k v) k = Some v.
Proof.
  induction d as [| [k' v'] d IH]; simpl.
  - now rewrite String.eqb_refl.
  - destruct (String.eqb k k') eqn:E; simpl; rewrite E; auto.
Qed.

Lemma get_set_other d k k' v :
  k' <> k -> Dict.get (Dict.set d k v) k' = Dict.get d k'.
Proof.
  intros Hne. induction d as [| [k0 v0] d IH]; simpl.
  - destruct (String.eqb_spec k' k); congruence.
  - destruct (String.eqb_spec k k0) as [-> | Hk]; simpl.
    + destruct (String.eqb_spec k' k0); congruence.
    + now rewrite IH.
Qed.

Lemma mem_set d k k' v :
  Dict.mem (Dict.set d k v) k' = String.eqb k' k || Dict.mem d k'.
Proof.
  unfold Dict.mem. destruct (String.eqb_spec k' k) as [-> | Hne].
  - now rewrite get_set_same.
  - now rewrite get_set_other.
Qed.

Lemma keys_set d k v :
  Dict.keys (Dict.set d k v) =
  if Dict.mem d k then Dict.keys d else (Dict.keys d ++ [k])%list.
Proof.
  unfold Dict.mem. induction d as [| [k' v'] d IH]; simpl; auto.
  destruct (String.eqb_spec k k') as [-> | Hne]; simpl; auto.
  rewrite IH. now destruct (Dict.get d k).
Qed.

Lemma mem_In_keys d k : Dict.mem d k = true <-> In k (Dict.keys d).
Proof.
  unfold Dict.mem. induction d as [| [k' v'] d IH]; simpl.
  - split; [discriminate | tauto].
  - destruct (String.eqb_spec k k') as [-> | Hne].
    + tauto.
    + rewrite IH. split; [tauto | intros [H | H]; congruence].
Qed.

(** A dictionary keeps its keys distinct under assignment. *)
Lemma NoDup_keys_set d k v :
  NoDup (Dict.keys d) -> NoDup (Dict.keys (Dict.set d k v)).
Proof.
  intros Hnd. rewrite keys_set. destruct (Dict.mem d k) eqn:E; auto.
  apply NoDup_rev in Hnd. rewrite <- (rev_involutive (_ ++ _)).
  apply NoDup_rev. rewrite rev_app_distr. simpl. constructor; auto.
  rewrite <- in_rev. intros Hin. apply mem_In_keys in Hin. congruence.
Qed.

(** [a | b] is right-biased: a key of [b] takes the value [b] gives it
    (the last one assigned), any other key keeps the value of [a]. *)
Lemma get_merge (a b : Dict.t V) k :
  Dict.get (Dict.merge a b) k =
  match Dict.get (rev b) k with
  | Some v => Some v
  | None => Dict.get a k
  end.
Proof.
  unfold Dict.merge. revert a.
  induction b as [| [k' v'] b IH] using rev_ind; intros a; simpl; auto.
  rewrite fold_left_app, rev_app_distr. simpl.
  destruct (String.eqb_spec k k') as [-> | Hne].
  - now rewrite get_set_same.
  - rewrite get_set_other by auto. apply IH.
Qed.

Lemma get_rev_NoDup d k :
  NoDup (Dict.keys d) -> Dict.get (rev d) k = Dict.get d k.
Proof.
  induction d as [| [k' v'] d IH]; simpl; auto.
  intros Hnd. inversion Hnd as [| ? ? Hnotin Hnd']; subst.
  assert (Happ : forall l : Dict.t V, Dict.get (l ++ [(k', v')])%list k =
            match Dict.get l k with
            | Some x => Some x
            | None => if String.eqb k k' then Some v' else None
            end).
  { induction l as [| [k0 v0] l IHl]; simpl; auto.
    destruct (String.eqb k k0); auto. }
  rewrite Happ, IH by auto.
  destruct (String.eqb_spec k k') as [-> | Hne]; auto.
  - destruct (Dict.get d k') eqn:E; auto.
    exfalso. apply Hnotin. apply mem_In_keys. unfold Dict.mem. now rewrite E.
  - now destruct (Dict.get d k).
Qed.

(** The right-biased merge, for a well-formed right operand. *)
Lemma get_merge_NoDup (a b : Dict.t V) k :
  NoDup (Dict.keys b) ->
  Dict.get (Dict.merge a b) k =
  match Dict.get b k with
  | Some v => Some v
  | None => Dict.get a k
  end.
Proof. intros Hnd. now rewrite get_merge, get_rev_NoDup. Qed.

End DictFacts.

(** ** The formatter *)

Section FormatterFacts.

Variables (charm_config : Dict.t json) (m : IntegratorMode).

(** The option is skipped by one of the two [continue] tests exactly when
    it does not apply. *)
Lemma to_dict_step_skips ret k o :
  applies o m = false -> to_dict_step charm_config m ret (k, o) = ret.
Proof.
  unfold applies, to_dict_step.
  destruct (mode o), m; simpl; intros H; try discriminate; reflexivity.
Qed.

(** An option that applies assigns its wire key, to some value. *)
Lemma to_dict_step_writes ret k o :
  applies o m = true ->
  exists v, to_dict_step charm_config m ret (k, o) = Dict.set ret (json_key o) v
            /\ (configurable o = false -> v = default o).
Proof.
  unfold applies, to_dict_step, Dict.mem.
  destruct (mode o), m; simpl; intros H; try discriminate;
    destruct (configurable o); simpl;
    try (destruct (Dict.get charm_config k) as [v |]);
    eexists; split; try reflexivity; intros; congruence.
Qed.

Lemma to_dict_step_mem ret k o key :
  Dict.mem (to_dict_step charm_config m ret (k, o)) key =
  Dict.mem ret key || (applies o m && String.eqb key (json_key o)).
Proof.
  destruct (applies o m) eqn:Ha.
  - destruct (to_dict_step_writes ret k o Ha) as [v [-> _]].
    rewrite mem_set. simpl. apply orb_comm.
  - rewrite to_dict_step_skips by assumption. simpl. now rewrite orb_false_r.
Qed.

(** The keys written by the loop: those the accumulator had, and the wire
    key of every option that applies. *)
Lemma fold_to_dict_mem fs ret key :
  Dict.mem (fold_left (to_dict_step charm_config m) fs ret) key =
  Dict.mem ret key ||
  existsb (fun f => applies (snd f) m && String.eqb key (json_key (snd f))) fs.
Proof.
  revert ret. induction fs as [| [k o] fs IH]; intros ret; cbn [fold_left existsb snd].
  - now rewrite orb_false_r.
  - rewrite IH, to_dict_step_mem. now rewrite orb_assoc.
Qed.

(** The key set of a payload: exactly the wire keys of the declared options
    that apply to the mode. *)
Lemma to_dict_mem_iff cls key :
  Dict.mem (to_dict cls charm_config m) key = true <->
  exists k o, In (k, o) (field_items cls) /\ json_key o = key /\ applies o m = true.
Proof.
  unfold to_dict. rewrite fold_to_dict_mem. simpl. rewrite existsb_exists. split.
  - intros [[k o] [Hin H]]. simpl in H. apply andb_true_iff in H as [Ha He].
    apply String.eqb_eq in He. exists k, o. auto.
  - intros [k [o [Hin [Hk Ha]]]]. exists (k, o). split; auto. simpl.
    rewrite Ha. subst key. now rewrite String.eqb_refl.
Qed.

(** The value under a wire key that only options with one and the same,
    not configurable, default write. *)
Lemma fold_to_dict_get_default fs ret key v :
  (forall k o, In (k, o) fs -> json_key o = key -> applies o m = true ->
               configurable o = false /\ default o = v) ->
  Dict.get (fold_left (to_dict_step charm_config m) fs ret) key =
  if existsb (fun f => applies (snd f) m && String.eqb key (json_key (snd f))) fs
  then Some v else Dict.get ret key.
Proof.
  revert ret. induction fs as [| [k o] fs IH]; intros ret H; cbn [fold_left existsb snd]; auto.
  rewrite IH by (intros k0 o0 Hin; apply (H k0 o0); now right).
  destruct (existsb _ fs); [now rewrite orb_true_r |]. rewrite orb_false_r.
  destruct (applies o m) eqn:Ha; cbn [andb].
  - destruct (to_dict_step_writes ret k o Ha) as [x [-> Hx]].
    destruct (String.eqb_spec key (json_key o)) as [-> | Hne].
    + rewrite get_set_same.
      destruct (H k o (or_introl eq_refl) eq_refl Ha) as [Hc Hd].
      now rewrite Hx, Hd.
    + now rewrite get_set_other.
  - now rewrite to_dict_step_skips.
Qed.

End FormatterFacts.

(** A loop may leave out the elements on which its body does nothing. *)
Lemma fold_left_filter_skip {A B} (f : A -> B -> A) (p : B -> bool) l a :
  (forall a b, p b = false -> f a b = a) ->
  fold_left f (filter p l) a = fold_left f l a.
Proof.
  intros Hskip. revert a. induction l as [| b l IH]; intros a; simpl; auto.
  destruct (p b) eqn:E; simpl.
  - apply IH.
  - now rewrite Hskip.
Qed.

Lemma field_items_drop_sink cls :
  field_items (drop_sink cls) =
  filter (fun f => match mode (snd f) with sink => false | _ => true end) (field_items cls).
Proof.
  induction cls as [| [k [o |]] cls IH]; simpl; auto.
  destruct (mode o) eqn:Hm; simpl; destruct (startswith k "__"); simpl;
    rewrite ?Hm; now rewrite IH.
Qed.

(** In source mode the sink-only options are dead: the payload is the one of
    the class without them. *)
Lemma to_dict_drop_sink cls charm_config :
  to_dict (drop_sink cls) charm_config ModeSource = to_dict cls charm_config ModeSource.
Proof.
  unfold to_dict. rewrite field_items_drop_sink.
  apply fold_left_filter_skip. intros ret [k o]. cbn [snd].
  destruct (mode o) eqn:Hm; try discriminate. intros _.
  apply to_dict_step_skips. unfold applies. now rewrite Hm.
Qed.

(** ** The wire payload of the formatter *)

(** C6, as stated, fails: a payload for source mode contains the wire key of
    a sink-only option when a source option is declared under the same wire
    key. *)
Lemma to_dict_shared_wire_key_counterexample :
  ~ (forall cls charm_config m k o,
        In (k, o) (field_items cls) ->
        (Dict.mem (to_dict cls charm_config m) (json_key o) = true
         <-> (mode o = both \/ mode_eqb (mode o) m = true))).
Proof.
  intros H.
  specialize (H PerModeClassFormatter [] ModeSource "sink_class" sink_class).
  assert (Hin : In ("sink_class", sink_class) (field_items PerModeClassFormatter))
    by (simpl; auto).
  destruct (H Hin) as [Hto _].
  destruct (Hto eq_refl) as [Hb | Hs]; discriminate.
Qed.

(** C6 (amended): for an option whose wire key is shared only with options of
    the same applicability, the payload contains the wire key if and only if
    the option's applicability is ["both"] or is the mode; and then an option
    of applicability ["none"] is never included. *)
Theorem to_dict_includes_iff_applicable cls charm_config m k o :
  In (k, o) (field_items cls) ->
  (forall k' o', In (k', o') (field_items cls) ->
                 json_key o' = json_key o -> mode o' = mode o) ->
  (Dict.mem (to_dict cls charm_config m) (json_key o) = true
   <-> (mode o = both \/ mode_eqb (mode o) m = true))
  /\ (mode o = none -> Dict.mem (to_dict cls charm_config m) (json_key o) = false).
Proof.
  intros Hin Hsame.
  assert (Hiff : Dict.mem (to_dict cls charm_config m) (json_key o) = true
                 <-> applies o m = true).
  { rewrite to_dict_mem_iff. split.
    - intros [k' [o' [Hin' [Hk Ha]]]]. unfold applies in *.
      now rewrite <- (Hsame k' o' Hin' Hk).
    - intros Ha. exists k, o. auto. }
  split.
  - rewrite Hiff. unfold applies. rewrite orb_true_iff.
    destruct (mode o); simpl; intuition congruence.
  - intros Hn. apply not_true_is_false. intros E.
    apply Hiff in E. unfold applies in E. rewrite Hn in E. discriminate.
Qed.

Lemma to_dict_includes_iff_applicable_witness :
  Dict.mem (to_dict ConfigFormatter [("topic", JStr "source_test")] ModeSource)
           (json_key topic) = true
  <-> (mode topic = both \/ mode_eqb (mode topic) ModeSource = true).
Proof.
  apply (to_dict_includes_iff_applicable ConfigFormatter
           [("topic", JStr "source_test")] ModeSource "topic" topic).
  - simpl. tauto.
  - intros k' o' Hin Hk. simpl in Hin.
    repeat (destruct Hin as [Hin | Hin];
            [inversion Hin; subst; try reflexivity; discriminate |]).
    contradiction.
Defined.

(** C7, as stated, fails: an option that is not configurable and applies to
    the mode is not emitted with its default when a configurable option
    declared after it under the same wire key is set by the operator. *)
Lemma to_dict_shared_key_overrides_default_counterexample :
  ~ (forall cls charm_config m k o,
        In (k, o) (field_items cls) ->
        configurable o = false ->
        applies o m = true ->
        Dict.get (to_dict cls charm_config m) (json_key o) = Some (default o)).
Proof.
  intros H.
  specialize (H SharedKeyFormatter [("batch_size", JInt 500)] ModeSource
                "batch_fixed" batch_fixed).
  assert (Hin : In ("batch_fixed", batch_fixed) (field_items SharedKeyFormatter))
    by (simpl; auto).
  specialize (H Hin eq_refl eq_refl). vm_compute in H. discriminate.
Qed.

(** C7 (amended): an option declared not configurable, which applies to the
    mode and shares its wire key, among the options that apply to the mode,
    only with options that are not configurable either and declare the same
    default (in particular when no other option declares the wire key), is
    emitted with its declared default whatever the desired configuration
    holds, also under the option's own name. *)
Theorem to_dict_not_configurable_default cls charm_config m k o :
  In (k, o) (field_items cls) ->
  configurable o = false ->
  applies o m = true ->
  (forall k' o', In (k', o') (field_items cls) -> applies o' m = true ->
                 json_key o' = json_key o ->
                 configurable o' = false /\ default o' = default o) ->
  Dict.get (to_dict cls charm_config m) (json_key o) = Some (default o).
Proof.
  intros Hin Hc Ha Honly. unfold to_dict.
  rewrite (fold_to_dict_get_default charm_config m (field_items cls) Dict.empty
             (json_key o) (default o)).
  - assert (He : existsb (fun f => applies (snd f) m
                                   && String.eqb (json_key o) (json_key (snd f)))
                         (field_items cls) = true).
    { apply existsb_exists. exists (k, o). split; auto. simpl.
      now rewrite Ha, String.eqb_refl. }
    now rewrite He.
  - intros k' o' Hin' Hk Ha'. now apply (Honly k' o').
Qed.

Lemma to_dict_not_configurable_default_witness :
  Dict.get (to_dict ConfigFormatter [("tasks_max", JInt 5); ("topic", JStr "t")] ModeSource)
           "tasks.max" = Some (JInt 1).
Proof.
  apply (to_dict_not_configurable_default ConfigFormatter
           [("tasks_max", JInt 5); ("topic", JStr "t")] ModeSource "tasks_max" tasks_max).
  - simpl. tauto.
  - reflexivity.
  - reflexivity.
  - intros k' o' Hin _ Hk. simpl in Hin.
    repeat (destruct Hin as [Hin | Hin];
            [inversion Hin; subst; try (split; reflexivity); discriminate |]).
    contradiction.
Defined.

(** ** The REST client *)

Lemma str_split_not_nil sep s : str_split sep s <> [].
Proof.
  destruct s as [| c s]; simpl; [discriminate |].
  destruct (Ascii.eqb c sep); [discriminate |].
  destruct (str_split sep s); discriminate.
Qed.

(** The guard of [endpoint] never fires: splitting a string gives at least
    one piece, so the property returns the first piece, whatever the endpoint
    list is. *)
Lemma endpoint_ok self :
  ConnectClient.endpoint self = Ok (first_endpoint (ConnectClient.client_context self)).
Proof.
  unfold ConnectClient.endpoint, first_endpoint.
  pose proof (str_split_not_nil "," (endpoints (ConnectClient.client_context self))) as Hne.
  destruct (str_split "," (endpoints (ConnectClient.client_context self))); [congruence |].
  reflexivity.
Qed.

Lemma existsb_str_In needle l :
  existsb (fun x => match x with JStr s => String.eqb needle s | _ => false end) l = true
  <-> In (JStr needle) l.
Proof.
  rewrite existsb_exists. split.
  - intros [x [Hin Hx]]. destruct x; try discriminate.
    apply String.eqb_eq in Hx. now subst.
  - intros Hin. exists (JStr needle). split; auto. apply String.eqb_refl.
Qed.

Section ClientFacts.

Variable transport : list http_request -> http_request -> string + http_response.
Variable repr_bytes : string -> string.
Variable repr_json : json -> string.

(** What one [request] does: the call is recorded, and the answer of the
    HTTP library is the result (logged) or becomes a [ConnectApiError]. *)
Lemma request_run self method api body timeout w :
  ConnectClient.request transport repr_bytes self method api body timeout w =
  let rq := client_request self method api body timeout in
  match transport (calls w) rq with
  | inl e =>
      (Raise (ConnectApiError ("Connect API call /" ++ api ++ " failed: " ++ e)),
       add_call rq w)
  | inr response =>
      (Ok response,
       add_log DEBUG (method_name method ++ " - " ++ req_url rq ++ ": "
                      ++ repr_bytes (content response))
               (add_call rq w))
  end.
Proof.
  unfold ConnectClient.request, bind, lift. rewrite endpoint_ok.
  unfold get_world, record_call, client_request. cbn [req_url].
  destruct (transport (calls w) _); reflexivity.
Qed.

(** The test of the 409 branch, read on the response. *)
Lemma already_exists_true response :
  ConnectClient.already_exists response = Ok true
  <-> status_code response = 409%Z /\ says_already_exists response.
Proof.
  unfold ConnectClient.already_exists, says_already_exists, json_of, json_get.
  destruct (Z.eqb_spec (status_code response) 409) as [E | E].
  - destruct (json_body response) as [[| | | | | d] |]; cbv beta iota;
      try (split; [discriminate | intros [_ [d' [Hd _]]]; discriminate]).
    destruct (Dict.get d "message") as [[| | | s | l | m] |] eqn:Em;
      unfold json_in; cbv beta iota.
    all: split;
      [ intros H; split; auto; exists d; split; auto; rewrite Em
      | intros [_ [d' [Hd H]]]; inversion Hd; subst d'; rewrite Em in H ];
      try discriminate; try contradiction; try congruence.
    + apply existsb_str_In. congruence.
    + f_equal. apply existsb_str_In. assumption.
  - split; [discriminate | intros [H _]; contradiction].
Qed.

(** Every run of [start_connector] issues exactly the create call and
    leaves the peer data alone. *)
Lemma client_start_effect self connector_config connector_name w :
  let r := ConnectClient.start_connector transport repr_bytes self
             connector_config connector_name w in
  calls (snd r) = (calls w ++ [create_request self connector_config connector_name])%list
  /\ peer (snd r) = peer w.
Proof.
  unfold ConnectClient.start_connector, bind. rewrite request_run.
  fold (create_request self connector_config connector_name). cbv zeta.
  destruct (transport (calls w) _) as [e | response]; [split; reflexivity |].
  destruct (status_code response =? 201)%Z; [split; reflexivity |].
  unfold lift. destruct (ConnectClient.already_exists response) as [[|] | e];
    split; reflexivity.
Qed.

(** An accepted create returns normally. *)
Lemma client_start_accepted self connector_config connector_name w response :
  transport (calls w) (create_request self connector_config connector_name) = inr response ->
  accepted response ->
  fst (ConnectClient.start_connector transport repr_bytes self
         connector_config connector_name w) = Ok tt.
Proof.
  intros Ht Hacc.
  unfold ConnectClient.start_connector, bind. rewrite request_run.
  fold (create_request self connector_config connector_name). cbv zeta. rewrite Ht.
  destruct (Z.eqb_spec (status_code response) 201) as [E | E]; [reflexivity |].
  destruct Hacc as [H | H]; [contradiction |].
  apply already_exists_true in H. unfold lift. now rewrite H.
Qed.

End ClientFacts.

(** The exceptions the 409 test can raise are those of decoding and of
    reading the body. *)
Lemma already_exists_raises response e :
  ConnectClient.already_exists response = Raise e ->
  e = JSONDecodeError \/ e = AttributeError \/ e = TypeError.
Proof.
  unfold ConnectClient.already_exists, json_of, json_get, json_in.
  destruct (status_code response =? 409)%Z; [| discriminate].
  destruct (json_body response) as [[| | | | | d] |]; cbv beta iota;
    try (intros H; inversion H; auto).
  revert H. destruct (Dict.get d "message") as [[| | | s | l | m] |];
    intros H; inversion H; auto.
Qed.

Section ClientClaims.

Variable transport : list http_request -> http_request -> string + http_response.
Variable repr_bytes : string -> string.
Variable repr_json : json -> string.

(** The test of the 409 branch on a 409, by the body of the response. *)
Lemma already_exists_409 response :
  status_code response = 409%Z ->
  ConnectClient.already_exists response =
  match json_body response with
  | None => Raise JSONDecodeError
  | Some (JDict d) =>
      match Dict.get d "message" with
      | None => Ok false
      | Some (JStr s) => Ok (str_contains "already exists" s)
      | Some (JList l) =>
          Ok (existsb (fun x => match x with
                                | JStr s => String.eqb "already exists" s
                                | _ => false
                                end) l)
      | Some (JDict m) => Ok (Dict.mem m "already exists")
      | Some _ => Raise TypeError
      end
  | Some _ => Raise AttributeError
  end.
Proof.
  intros H409. unfold ConnectClient.already_exists, json_of, json_get, json_in.
  rewrite H409. change (409 =? 409)%Z with true. cbv beta iota.
  destruct (json_body response) as [[| | | | | d] |]; try reflexivity.
  destruct (Dict.get d "message") as [[| | | s | l | m] |]; reflexivity.
Qed.

(** C1 (the behaviour of the code): [start_connector] returns normally
    exactly when the response is a 201, or a 409 whose body indicates
    "already exists"; a failure of the transport, and a status other than
    201 and 409, raise a [ConnectApiError], the latter with the response
    body.  On a 409 the body is decoded before anything is raised: a body
    that is an object whose message lacks the text raises the
    [ConnectApiError] with the response body, but a body that is not JSON
    raises [JSONDecodeError], a body that is not an object raises
    [AttributeError], and a message that is [null], a boolean or a number
    raises [TypeError]: no [ConnectApiError] then, against what the
    docstring of the method says. *)
Theorem start_connector_outcomes self connector_config connector_name w :
  let r := fst (ConnectClient.start_connector transport repr_bytes self
                  connector_config connector_name w) in
  match transport (calls w) (create_request self connector_config connector_name) with
  | inl e => r = Raise (ConnectApiError ("Connect API call /connectors failed: " ++ e))
  | inr response =>
      let api_error : result unit :=
        Raise (ConnectApiError ("Unable to start the connector, details: "
                                ++ repr_bytes (content response))) in
      (r = Ok tt <->
       status_code response = 201%Z \/
       (status_code response = 409%Z /\ says_already_exists response))
      /\ (status_code response <> 201%Z -> status_code response <> 409%Z -> r = api_error)
      /\ (status_code response = 409%Z ->
          match json_body response with
          | None => r = Raise JSONDecodeError
          | Some (JDict d) =>
              match Dict.get d "message" with
              | None => r = api_error
              | Some (JStr s) => str_contains "already exists" s = false -> r = api_error
              | Some (JList l) => ~ In (JStr "already exists") l -> r = api_error
              | Some (JDict m) => Dict.mem m "already exists" = false -> r = api_error
              | Some _ => r = Raise TypeError
              end
          | Some _ => r = Raise AttributeError
          end)
  end.
Proof.
  unfold ConnectClient.start_connector, bind. rewrite request_run.
  fold (create_request self connector_config connector_name). cbv zeta.
  destruct (transport (calls w) _) as [e | response]; [reflexivity |].
  destruct (Z.eqb_spec (status_code response) 201) as [E | E].
  - split; [| split; [contradiction | congruence]]. split; auto.
  - unfold lift.
    pose proof (already_exists_true response) as Hae.
    pose proof (already_exists_409 response) as H409.
    destruct (ConnectClient.already_exists response) as [[|] | e] eqn:Ha; cbn [fst].
    + split; [| split].
      * split; [intros _; right; now apply Hae | reflexivity].
      * intros _ Hne. destruct Hae as [Hae _].
        destruct (Hae eq_refl) as [H _]. contradiction.
      * intros Hs. specialize (H409 Hs).
        destruct (json_body response) as [[| | | | | d] |]; try discriminate.
        destruct (Dict.get d "message") as [[| | | s | l | m] |]; try discriminate.
        -- intros Hc. congruence.
        -- intros Hn. exfalso. apply Hn. apply existsb_str_In. congruence.
        -- intros Hm. congruence.
    + split; [| split].
      * split; [discriminate |]. intros [H | H]; [contradiction |].
        apply Hae in H. discriminate.
      * reflexivity.
      * intros Hs. specialize (H409 Hs).
        destruct (json_body response) as [[| | | | | d] |]; try discriminate.
        destruct (Dict.get d "message") as [[| | | s | l | m] |];
          try discriminate; reflexivity.
    + split; [| split].
      * split; [discriminate |]. intros [H | H]; [contradiction |].
        apply Hae in H. discriminate.
      * intros _ Hne. unfold ConnectClient.already_exists in Ha.
        destruct (Z.eqb_spec (status_code response) 409); [contradiction | discriminate].
      * intros Hs. specialize (H409 Hs).
        destruct (json_body response) as [[| | | | | d] |];
          try (inversion H409; reflexivity).
        destruct (Dict.get d "message") as [[| | | s | l | m] |];
          try discriminate; inversion H409; reflexivity.
Qed.

(** C3 (the behaviour of the code): with an empty endpoint list the client
    raises no [ConnectClientError]; [endpoint] is the empty string and the
    create call goes to the HTTP library, with the URL [/connectors]. *)
Theorem empty_endpoints_not_rejected self connector_config connector_name w :
  endpoints (ConnectClient.client_context self) = EmptyString ->
  let r := ConnectClient.start_connector transport repr_bytes self
             connector_config connector_name w in
  ConnectClient.endpoint self = Ok EmptyString
  /\ calls (snd r) = (calls w ++ [create_request self connector_config connector_name])%list
  /\ req_url (create_request self connector_config connector_name) = "/connectors"
  /\ forall msg, fst r <> Raise (ConnectClientError msg).
Proof.
  intros Hempty r. split; [| split; [| split]].
  - rewrite endpoint_ok. unfold first_endpoint. now rewrite Hempty.
  - apply client_start_effect.
  - unfold create_request, client_request, first_endpoint. cbn [req_url].
    now rewrite Hempty.
  - intros msg. subst r.
    unfold ConnectClient.start_connector, bind. rewrite request_run. cbv zeta.
    destruct (transport (calls w) _) as [e | response]; [discriminate |].
    destruct (status_code response =? 201)%Z; [discriminate |].
    unfold lift.
    destruct (ConnectClient.already_exists response) as [[|] | e] eqn:Ha;
      try discriminate.
    cbn [fst]. apply already_exists_raises in Ha.
    destruct Ha as [-> | [-> | ->]]; discriminate.
Qed.

(** [task_status] has no handler, unlike [connector_status]: a failure of
    the transport on the first read leaves it as a [ConnectApiError]. *)
Theorem task_status_propagates_transport_failure self connector_name w e :
  let api := "connectors/" ++ str_or connector_name (ConnectClient.connector_name self)
             ++ "/tasks" in
  transport (calls w) (client_request self GET api None (Some 10%Z)) = inl e ->
  fst (ConnectClient.task_status transport repr_bytes repr_json self connector_name w)
  = Raise (ConnectApiError ("Connect API call /" ++ api ++ " failed: " ++ e)).
Proof.
  intros api Ht. subst api.
  unfold ConnectClient.task_status, bind. rewrite request_run.
  cbv zeta. rewrite Ht. reflexivity.
Qed.

(** C4 (amended): when the transport answers both reads, [task_status]
    gives [UNKNOWN] on a task list read with a status other than 200 and
    404, [UNASSIGNED] on a 404 and on a 200 whose decoded body is empty;
    otherwise, when the decoded body is a list whose first task is an
    object with an [id] that is absent or an object, it reads the status
    of that task (task number 0 when the [id] names none), where 404 gives
    [UNASSIGNED], a status other than 200 gives [UNKNOWN], and a 200 with
    an object body gives the member named by the state, or [UNASSIGNED]
    when the state is absent. *)
Theorem task_status_cases self connector_name w response :
  let n := str_or connector_name (ConnectClient.connector_name self) in
  let rq := client_request self GET ("connectors/" ++ n ++ "/tasks") None (Some 10%Z) in
  let r := fst (ConnectClient.task_status transport repr_bytes repr_json self
                  connector_name w) in
  transport (calls w) rq = inr response ->
  (status_code response = 404%Z -> r = Ok UNASSIGNED)
  /\ (status_code response <> 200%Z -> status_code response <> 404%Z -> r = Ok UNKNOWN)
  /\ (status_code response = 200%Z ->
      forall tasks, json_body response = Some tasks ->
        (json_truthy tasks = false -> r = Ok UNASSIGNED)
        /\ (forall task rest id,
              tasks = JList (JDict task :: rest) ->
              match Dict.get task "id" with Some v => v | None => JDict [] end = JDict id ->
              let task_id := match Dict.get id "task" with Some v => v | None => JInt 0 end in
              let rq2 := client_request self GET
                           ("connectors/" ++ n ++ "/tasks/"
                            ++ ConnectClient.format_json repr_json task_id ++ "/status")
                           None (Some 10%Z) in
              forall response2,
                transport (calls w ++ [rq])%list rq2 = inr response2 ->
                (status_code response2 = 404%Z -> r = Ok UNASSIGNED)
                /\ (status_code response2 <> 200%Z -> status_code response2 <> 404%Z ->
                    r = Ok UNKNOWN)
                /\ (status_code response2 = 200%Z ->
                    forall d, json_body response2 = Some (JDict d) ->
                      (Dict.get d "state" = None -> r = Ok UNASSIGNED)
                      /\ (forall t, Dict.get d "state" = Some (JStr (TaskStatus_value t)) ->
                                    r = Ok t)))).
Proof.
  intros n rq r Ht.
  pose proof (eq_refl r) as Hr. unfold r at 2 in Hr.
  unfold ConnectClient.task_status, bind in Hr. rewrite request_run in Hr.
  cbv zeta in Hr. fold n in Hr. fold rq in Hr. rewrite Ht in Hr.
  unfold ConnectClient.not_200_404, ret, lift, json_of in Hr. clearbody r.
  destruct (Z.eqb_spec (status_code response) 200) as [E2 | E2];
    destruct (Z.eqb_spec (status_code response) 404) as [E4 | E4];
    cbn [orb negb fst] in Hr.
  - congruence.
  - split; [contradiction |]. split; [contradiction |].
    intros _ tasks Hbody. rewrite Hbody in Hr. cbv beta iota in Hr.
    split.
    + intros Hfalsy. rewrite Hfalsy in Hr. exact Hr.
    + intros task rest id -> Hid task_id rq2 response2 Ht2. subst rq2 task_id.
      cbn [json_truthy negb json_first] in Hr. cbv beta iota in Hr.
      unfold json_get at 1 2 in Hr. rewrite Hid in Hr. cbv beta iota in Hr.
      rewrite request_run in Hr. cbv zeta in Hr.
      cbn [calls add_log add_call] in Hr. rewrite Ht2 in Hr. cbv beta iota in Hr.
      destruct (Z.eqb_spec (status_code response2) 404) as [F4 | F4];
        destruct (Z.eqb_spec (status_code response2) 200) as [F2 | F2];
        cbn [negb fst] in Hr.
      * congruence.
      * repeat split; intros; first [exact Hr | contradiction].
      * split; [contradiction |]. split; [contradiction |].
        intros _ d Hd. rewrite Hd in Hr. unfold json_get in Hr. split.
        -- intros Hs. rewrite Hs in Hr. exact Hr.
        -- intros t Hs. rewrite Hs in Hr. rewrite Hr. now destruct t.
      * repeat split; intros; first [exact Hr | contradiction].
  - repeat split; intros; first [exact Hr | contradiction].
  - repeat split; intros; first [exact Hr | contradiction].
Qed.

(** C5 (amended): [connector_status] gives [UNKNOWN] on a failure of the
    transport (caught and logged), [UNASSIGNED] on 404, [UNKNOWN] on a
    status other than 200 and 404, and on a 200 whose body is an object
    with a nested connector object, the member named by its state, or
    [UNASSIGNED] when the connector or the state is absent. *)
Theorem connector_status_cases self w :
  let api := "connectors/" ++ ConnectClient.connector_name self ++ "/status" in
  let r := ConnectClient.connector_status transport repr_bytes self w in
  match transport (calls w) (client_request self GET api None (Some 10%Z)) with
  | inl e =>
      fst r = Ok UNKNOWN
      /\ In (ERROR, "Connect API call /" ++ api ++ " failed: " ++ e) (logs (snd r))
  | inr response =>
      (status_code response = 404%Z -> fst r = Ok UNASSIGNED)
      /\ (status_code response <> 200%Z -> status_code response <> 404%Z ->
          fst r = Ok UNKNOWN)
      /\ (status_code response = 200%Z ->
          forall d, json_body response = Some (JDict d) ->
            (Dict.get d "connector" = None -> fst r = Ok UNASSIGNED)
            /\ (forall c, Dict.get d "connector" = Some (JDict c) ->
                  (Dict.get c "state" = None -> fst r = Ok UNASSIGNED)
                  /\ (forall t, Dict.get c "state" = Some (JStr (TaskStatus_value t)) ->
                                fst r = Ok t)))
  end.
Proof.
  unfold ConnectClient.connector_status, bind, try_except_ConnectApiError.
  rewrite request_run. cbv zeta.
  destruct (transport (calls w) _) as [e | response].
  - split; [reflexivity |]. cbn [snd fst logs add_log add_call].
    apply in_or_app. right. now left.
  - unfold ConnectClient.not_200_404, ret.
    destruct (Z.eqb_spec (status_code response) 200) as [E2 | E2];
      destruct (Z.eqb_spec (status_code response) 404) as [E4 | E4];
      cbn [orb negb fst].
    + congruence.
    + split; [contradiction |]. split; [contradiction |].
      intros _ d Hd. unfold lift, json_of. rewrite Hd. unfold json_get.
      split.
      * intros Hc. rewrite Hc. reflexivity.
      * intros c Hc. rewrite Hc. split.
        -- intros Hs. rewrite Hs. reflexivity.
        -- intros t Hs. rewrite Hs. now destruct t.
    + split; [reflexivity |]. split; [contradiction | contradiction].
    + split; [contradiction |]. split; [reflexivity | contradiction].
Qed.

End ClientClaims.

(** The create verb at three responses. *)
Example start_connector_201 :
  fst (ConnectClient.start_connector transport_created repr_bytes_plain related_client
         [("topic", JStr "t")] None fresh_world) = Ok tt.
Proof. reflexivity. Qed.

Example start_connector_409_exists :
  fst (ConnectClient.start_connector
         (fun _ _ => inr {| status_code := 409; content := "c";
                            json_body := Some (JDict [("message",
                              JStr "Connector x already exists")]) |})
         repr_bytes_plain related_client [] None fresh_world) = Ok tt.
Proof. reflexivity. Qed.

(** C1, at the failing input: a 409 whose body is not JSON leaves
    [start_connector] with a [JSONDecodeError], not a [ConnectApiError]. *)
Lemma start_connector_409_undecodable_body :
  fst (ConnectClient.start_connector transport_409_html repr_bytes_plain related_client
         [("topic", JStr "t")] None fresh_world) = Raise JSONDecodeError.
Proof.
  pose proof (start_connector_outcomes transport_409_html repr_bytes_plain related_client
                [("topic", JStr "t")] None fresh_world) as H.
  cbv zeta in H. cbv beta iota delta [transport_409_html] in H.
  destruct H as [_ [_ H]]. exact (H eq_refl).
Defined.

Example start_connector_500 :
  fst (ConnectClient.start_connector transport_error repr_bytes_plain related_client
         [] None fresh_world)
  = Raise (ConnectApiError "Unable to start the connector, details: b'boom'").
Proof. reflexivity. Qed.

Lemma empty_endpoints_not_rejected_witness :
  ConnectClient.endpoint unrelated_client = Ok EmptyString
  /\ calls (snd (ConnectClient.start_connector transport_refused repr_bytes_plain
                   unrelated_client [] None fresh_world))
     = [create_request unrelated_client [] None].
Proof.
  destruct (empty_endpoints_not_rejected transport_refused repr_bytes_plain
              unrelated_client [] None fresh_world eq_refl) as [H1 [H2 _]].
  split; [exact H1 | exact H2].
Defined.

(** A first task whose [id] is a number: the read of its task number
    raises, after the one call. *)
Example task_status_numeric_task_id :
  let r := ConnectClient.task_status transport_task_numeric_id repr_bytes_plain
             repr_json_plain related_client None fresh_world in
  fst r = Raise AttributeError /\ length (calls (snd r)) = 1%nat.
Proof. vm_compute. split; reflexivity. Qed.

(** C4, as stated, fails: a task whose state is not a member of
    [TaskStatus] makes [task_status] raise. *)
Lemma task_status_unlisted_state_counterexample :
  fst (ConnectClient.task_status transport_task_restarting repr_bytes_plain repr_json_plain
         related_client None fresh_world) = Raise ValueError.
Proof. reflexivity. Qed.

Lemma task_status_cases_witness :
  fst (ConnectClient.task_status transport_error repr_bytes_plain repr_json_plain
         related_client None fresh_world) = Ok UNKNOWN.
Proof.
  destruct (task_status_cases transport_error repr_bytes_plain repr_json_plain
              related_client None fresh_world
              {| status_code := 500; content := "boom"; json_body := None |} eq_refl)
    as [_ [H _]].
  apply H; discriminate.
Defined.

Lemma task_status_propagates_transport_failure_witness :
  fst (ConnectClient.task_status transport_refused repr_bytes_plain repr_json_plain
         related_client None fresh_world)
  = Raise (ConnectApiError
             "Connect API call /connectors/test-integrator_r7_0f1e/tasks failed: Connection refused").
Proof.
  apply (task_status_propagates_transport_failure transport_refused repr_bytes_plain
           repr_json_plain related_client None fresh_world "Connection refused").
  reflexivity.
Defined.

(** C5, as stated, fails: a 200 whose connector state is not a member of
    [TaskStatus] makes [connector_status] raise. *)
Lemma connector_status_unlisted_state_counterexample :
  fst (ConnectClient.connector_status transport_restarting repr_bytes_plain
         related_client fresh_world) = Raise ValueError.
Proof. reflexivity. Qed.

(** A 200 whose body does not decode raises too. *)
Example connector_status_undecodable_body :
  fst (ConnectClient.connector_status
         (fun _ _ => inr {| status_code := 200; content := "<html>"; json_body := None |})
         repr_bytes_plain related_client fresh_world) = Raise JSONDecodeError.
Proof. reflexivity. Qed.

(** ** The lifecycle controller *)

(** What the controller reads of the world is the peer data. *)
Lemma started_peer w w' :
  peer w = peer w' -> BaseIntegrator.started w = BaseIntegrator.started w'.
Proof. unfold BaseIntegrator.started. now intros ->. Qed.

Lemma dynamic_config_peer w w' :
  peer w = peer w' -> BaseIntegrator.dynamic_config w = BaseIntegrator.dynamic_config w'.
Proof. unfold BaseIntegrator.dynamic_config. now intros ->. Qed.

Lemma connector_names_peer prefix w w' :
  peer w = peer w' ->
  BaseIntegrator.connector_names prefix w = BaseIntegrator.connector_names prefix w'.
Proof.
  intros H. unfold BaseIntegrator.connector_names. now rewrite (dynamic_config_peer w w' H).
Qed.

(** Pointwise equal continuations give pointwise equal computations. *)
Lemma bind_ext {A B} (m : M A) (k k' : A -> M B) w :
  (forall a w', k a w' = k' a w') -> bind m k w = bind m k' w.
Proof. intros H. unfold bind. destruct (m w) as [[a | e] w']; auto. Qed.

Lemma bind_cong {A B} (m m' : M A) (k k' : A -> M B) w :
  m w = m' w -> (forall a w', k a w' = k' a w') -> bind m k w = bind m' k' w.
Proof. intros Hm H. unfold bind. rewrite Hm. destruct (m' w) as [[a | e] w']; auto. Qed.

Section ControllerFacts.

Variable transport : list http_request -> http_request -> string + http_response.
Variable repr_bytes : string -> string.
Variable repr_json : json -> string.
Variable MULTICONNECTOR_PREFIX : string.

Variable self : BaseIntegrator.t.

Let base : Dict.t json :=
  to_dict (BaseIntegrator.formatter self) (BaseIntegrator.config self) ModeSource.

(** One turn of the loop of [start_connector], for a connector whose
    overrides are a mapping: the create call is issued, the peer data is
    left alone, and an accepted create lets the loop go on. *)
Lemma start_one_run n o w :
  Dict.get (BaseIntegrator.dynamic_config w) n = Some (JDict o) ->
  let rq := create_request (BaseIntegrator._client self) (Dict.merge base o) (Some n) in
  let r := BaseIntegrator.start_one transport repr_bytes self n w in
  peer (snd r) = peer w
  /\ calls (snd r) = (calls w ++ [rq])%list
  /\ (forall response, transport (calls w) rq = inr response -> accepted response ->
                       fst r = Ok true).
Proof.
  intros Ho rq r. subst r.
  unfold BaseIntegrator.start_one, try_except_ConnectApiError, bind, get_world, lift,
    BaseIntegrator.overrides_of.
  rewrite Ho. fold base.
  pose proof (client_start_effect transport repr_bytes (BaseIntegrator._client self)
                (Dict.merge base o) (Some n) w) as Heff.
  pose proof (client_start_accepted transport repr_bytes (BaseIntegrator._client self)
                (Dict.merge base o) (Some n) w) as Hacc.
  cbv zeta in Heff. fold rq in Heff, Hacc.
  destruct (ConnectClient.start_connector transport repr_bytes
              (BaseIntegrator._client self) (Dict.merge base o) (Some n) w)
    as [[[] | e] w'].
  - cbn in *. destruct Heff. repeat split; auto.
  - cbn [fst snd] in *. destruct Heff as [Hc Hp].
    assert (Hno : forall response, transport (calls w) rq = inr response ->
                                   accepted response -> False).
    { intros response Ht Ha. specialize (Hacc response Ht Ha). discriminate. }
    destruct e; cbn; repeat split; auto; intros response Ht Ha;
      exfalso; eapply Hno; eauto.
Qed.

(** The loop of [start_connector] over identifiers whose overrides are
    mappings: the peer data is left alone; the calls issued are the
    expected create calls, in order, up to the first that fails; when the
    server accepts every create, all of them are issued and the loop runs
    to its end. *)
Lemma start_each_run names : forall w,
  (forall n, In n names ->
             exists o, Dict.get (BaseIntegrator.dynamic_config w) n = Some (JDict o)) ->
  let r := BaseIntegrator.start_each transport repr_bytes self names w in
  let creates := creates_for self (BaseIntegrator.dynamic_config w) names in
  peer (snd r) = peer w
  /\ (exists k, calls (snd r) = (calls w ++ firstn k creates)%list)
  /\ (accepts_creates transport ->
      fst r = Ok true /\ calls (snd r) = (calls w ++ creates)%list).
Proof.
  induction names as [| n names IH]; intros w Hmaps.
  - cbn. repeat split; auto.
    + exists 0%nat. now rewrite app_nil_r.
    + now rewrite app_nil_r.
  - destruct (Hmaps n (or_introl eq_refl)) as [o Ho].
    destruct (start_one_run n o w Ho) as [Hp [Hc Hok]].
    assert (Hstep :
              BaseIntegrator.start_each transport repr_bytes self (n :: names) w =
              match BaseIntegrator.start_one transport repr_bytes self n w with
              | (Ok true, w1) => BaseIntegrator.start_each transport repr_bytes self names w1
              | (Ok false, w1) => (Ok false, w1)
              | (Raise e, w1) => (Raise e, w1)
              end).
    { cbn [BaseIntegrator.start_each]. unfold bind.
      now destruct (BaseIntegrator.start_one transport repr_bytes self n w)
        as [[[|] | e] w1]. }
    cbv zeta in Hp, Hc, Hok |- *. rewrite Hstep. clear Hstep.
    destruct (BaseIntegrator.start_one transport repr_bytes self n w)
      as [[continue | e] w1] eqn:Hone; cbn [fst snd] in Hp, Hc, Hok.
    + assert (Hd : BaseIntegrator.dynamic_config w1 = BaseIntegrator.dynamic_config w)
        by now apply dynamic_config_peer.
      assert (Hhead : creates_for self (BaseIntegrator.dynamic_config w) (n :: names)
                      = create_request (BaseIntegrator._client self) (Dict.merge base o) (Some n)
                        :: creates_for self (BaseIntegrator.dynamic_config w1) names).
      { unfold creates_for. cbn [map]. rewrite Hd. f_equal.
        unfold override_mapping. now rewrite Ho. }
      rewrite Hhead.
      destruct continue.
      * specialize (IH w1). cbv zeta in IH.
        destruct IH as [IHp [[k IHk] IHacc]].
        { intros n' Hin. rewrite Hd. apply Hmaps. now right. }
        split; [congruence |]. split.
        -- exists (S k). rewrite IHk, Hc. cbn [firstn]. now rewrite <- app_assoc.
        -- intros Hall. destruct (IHacc Hall) as [Hf Hcalls]. split; auto.
           rewrite Hcalls, Hc. now rewrite <- app_assoc.
      * cbn [ret fst snd]. split; auto. split.
        -- exists 1%nat. cbn [firstn]. exact Hc.
        -- intros Hall.
           destruct (Hall (calls w)
                       (create_request (BaseIntegrator._client self)
                          (Dict.merge base o) (Some n))) as [response [Ht Ha]].
           specialize (Hok response Ht Ha). discriminate.
    + assert (Hhead : creates_for self (BaseIntegrator.dynamic_config w) (n :: names)
                      = create_request (BaseIntegrator._client self) (Dict.merge base o) (Some n)
                        :: creates_for self (BaseIntegrator.dynamic_config w) names).
      { unfold creates_for. cbn [map]. f_equal. unfold override_mapping. now rewrite Ho. }
      rewrite Hhead. cbn [fst snd]. split; auto. split.
      * exists 1%nat. cbn [firstn]. exact Hc.
      * intros Hall.
        destruct (Hall (calls w)
                    (create_request (BaseIntegrator._client self)
                       (Dict.merge base o) (Some n))) as [response [Ht Ha]].
        specialize (Hok response Ht Ha). discriminate.
Qed.

(** The single connector case: one create call, with the whole dynamic
    configuration as the overrides. *)
Lemma start_single_run w :
  let rq := create_request (BaseIntegrator._client self)
              (Dict.merge base (BaseIntegrator.dynamic_config w)) None in
  let r := BaseIntegrator.start_single transport repr_bytes self w in
  peer (snd r) = peer w
  /\ calls (snd r) = (calls w ++ [rq])%list
  /\ (accepts_creates transport -> fst r = Ok true).
Proof.
  intros rq r. subst r.
  unfold BaseIntegrator.start_single, try_except_ConnectApiError, bind, get_world.
  fold base.
  pose proof (client_start_effect transport repr_bytes (BaseIntegrator._client self)
                (Dict.merge base (BaseIntegrator.dynamic_config w)) None w) as Heff.
  pose proof (client_start_accepted transport repr_bytes (BaseIntegrator._client self)
                (Dict.merge base (BaseIntegrator.dynamic_config w)) None w) as Hacc.
  cbv zeta in Heff. fold rq in Heff, Hacc.
  destruct (ConnectClient.start_connector transport repr_bytes
              (BaseIntegrator._client self)
              (Dict.merge base (BaseIntegrator.dynamic_config w)) None w)
    as [[[] | e] w'].
  - cbn in *. destruct Heff. repeat split; auto.
  - cbn [fst snd] in *. destruct Heff as [Hc Hp].
    assert (Hno : accepts_creates transport -> False).
    { intros Hall. destruct (Hall (calls w) rq) as [response [Ht Ha]].
      specialize (Hacc response Ht Ha). discriminate. }
    destruct e; cbn; repeat split; auto; intros Hall; exfalso; auto.
Qed.

End ControllerFacts.

Section ControllerClaims.

Variable transport : list http_request -> http_request -> string + http_response.
Variable repr_bytes : string -> string.
Variable repr_json : json -> string.
Variable MULTICONNECTOR_PREFIX : string.

Variable self : BaseIntegrator.t.

Let start := BaseIntegrator.start_connector transport repr_bytes MULTICONNECTOR_PREFIX.
Let patch := BaseIntegrator.patch_connector transport repr_bytes repr_json MULTICONNECTOR_PREFIX.
Let names := BaseIntegrator.connector_names MULTICONNECTOR_PREFIX.
Let base : Dict.t json :=
  to_dict (BaseIntegrator.formatter self) (BaseIntegrator.config self) ModeSource.

(** An integrator that is started returns from [start_connector] at once:
    a log record, and nothing else. *)
Lemma start_when_started w :
  BaseIntegrator.started w = true ->
  start self w = (Ok tt, add_log INFO "Connector has already started" w).
Proof.
  intros Hs. unfold start, BaseIntegrator.start_connector, bind, get_world.
  now rewrite Hs.
Qed.

(** The run of [start_connector] on an integrator that is not started and
    whose setup succeeds. *)
Lemma start_not_started w w1 :
  BaseIntegrator.started w = false ->
  BaseIntegrator.setup self w = (Ok tt, w1) ->
  start self w =
  match BaseIntegrator.start_each transport repr_bytes self (names w1) w1 with
  | (Ok true, w2) =>
      match (match names w2 with
             | [] => BaseIntegrator.start_single transport repr_bytes self w2
             | _ => (Ok true, w2)
             end) with
      | (Ok true, w3) => BaseIntegrator.set_started true w3
      | (Ok false, w3) => (Ok tt, w3)
      | (Raise e, w3) => (Raise e, w3)
      end
  | (Ok false, w2) => (Ok tt, w2)
  | (Raise e, w2) => (Raise e, w2)
  end.
Proof.
  intros Hs Hsetup. unfold start, BaseIntegrator.start_connector, bind, get_world.
  rewrite Hs, Hsetup. fold (names w1).
  destruct (BaseIntegrator.start_each transport repr_bytes self (names w1) w1)
    as [[[|] | e] w2]; try reflexivity.
  fold (names w2). destruct (names w2).
  - now destruct (BaseIntegrator.start_single transport repr_bytes self w2)
      as [[[|] | e] w3].
  - reflexivity.
Qed.

(** Setting the flag touches the peer data only. *)
Lemma set_started_run val w :
  exists w', BaseIntegrator.set_started val w = (Ok tt, w')
             /\ calls w' = calls w /\ logs w' = logs w
             /\ (peer w <> None -> BaseIntegrator.started w' = val)
             /\ BaseIntegrator.dynamic_config w' = BaseIntegrator.dynamic_config w.
Proof.
  unfold BaseIntegrator.set_started, bind, get_world, set_peer, ret.
  destruct w as [c l [p |]]; cbn [peer].
  - destruct val; eexists; split; try reflexivity; cbn; repeat split; auto.
  - eexists; split; try reflexivity. cbn. repeat split; auto. congruence.
Qed.

(** C8: in multi-connector mode (the dynamic configuration left by setup
    holds connector identifiers, each with a mapping of overrides), a
    start of an integrator that is not started issues one create call per
    identifier: the identifiers are distinct, the calls come in their
    order and stop at the first that fails, and all of them are issued
    when the server accepts every create.  The payload of each call is the
    formatter output merged with the overrides of that identifier, a key
    of the overrides taking the value the overrides give it. *)
Theorem start_multi_connector_creates w w1 :
  BaseIntegrator.started w = false ->
  BaseIntegrator.setup self w = (Ok tt, w1) ->
  names w1 <> [] ->
  NoDup (Dict.keys (BaseIntegrator.dynamic_config w1)) ->
  (forall n, In n (names w1) ->
             exists o, Dict.get (BaseIntegrator.dynamic_config w1) n = Some (JDict o)) ->
  let creates := creates_for self (BaseIntegrator.dynamic_config w1) (names w1) in
  NoDup (names w1)
  /\ length creates = length (names w1)
  /\ (exists k, calls (snd (start self w)) = (calls w1 ++ firstn k creates)%list)
  /\ (accepts_creates transport ->
      fst (start self w) = Ok tt
      /\ calls (snd (start self w)) = (calls w1 ++ creates)%list)
  /\ (forall n key,
        Dict.get (Dict.merge base (override_mapping (BaseIntegrator.dynamic_config w1) n)) key
        = match Dict.get (rev (override_mapping (BaseIntegrator.dynamic_config w1) n)) key with
          | Some v => Some v
          | None => Dict.get base key
          end).
Proof.
  intros Hs Hsetup Hmulti Hnd Hmaps creates.
  split; [| split; [| split; [| split]]].
  - unfold names, BaseIntegrator.connector_names. now apply NoDup_filter.
  - unfold creates, creates_for. apply length_map.
  - rewrite (start_not_started w w1 Hs Hsetup).
    destruct (start_each_run transport repr_bytes self (names w1) w1 Hmaps)
      as [Hp [[k Hk] _]]. fold creates in Hk.
    destruct (BaseIntegrator.start_each transport repr_bytes self (names w1) w1)
      as [[[|] | e] w2]; cbn [fst snd] in *; try (exists k; exact Hk).
    assert (Hn : names w2 = names w1) by (apply connector_names_peer; exact Hp).
    rewrite Hn. destruct (names w1) as [| n0 rest]; [congruence |].
    destruct (set_started_run true w2) as [w' [-> [Hc _]]].
    exists k. cbn [snd]. congruence.
  - intros Hall. rewrite (start_not_started w w1 Hs Hsetup).
    destruct (start_each_run transport repr_bytes self (names w1) w1 Hmaps)
      as [Hp [_ Hacc]]. destruct (Hacc Hall) as [Hf Hcalls]. fold creates in Hcalls.
    destruct (BaseIntegrator.start_each transport repr_bytes self (names w1) w1)
      as [[[|] | e] w2]; cbn [fst snd] in *; try discriminate.
    assert (Hn : names w2 = names w1) by (apply connector_names_peer; exact Hp).
    rewrite Hn. destruct (names w1) as [| n0 rest]; [congruence |].
    destruct (set_started_run true w2) as [w' [-> [Hc _]]].
    cbn [fst snd]. split; congruence.
  - intros n key. apply get_merge.
Qed.

(** C2: when setup succeeds, the peer relation exists, the overrides of
    every connector are a mapping and the server accepts every create, a
    first start leaves the integrator started, and a second start returns
    at once: it issues no call, leaves the peer data as it is and adds a
    log record. *)
Theorem start_twice_idempotent w w1 :
  BaseIntegrator.setup self w = (Ok tt, w1) ->
  peer w1 <> None ->
  (forall n, In n (names w1) ->
             exists o, Dict.get (BaseIntegrator.dynamic_config w1) n = Some (JDict o)) ->
  accepts_creates transport ->
  BaseIntegrator.started w = false ->
  let first := start self w in
  let second := start self (snd first) in
  fst first = Ok tt
  /\ BaseIntegrator.started (snd first) = true
  /\ second = (Ok tt, add_log INFO "Connector has already started" (snd first))
  /\ BaseIntegrator.started (snd second) = true
  /\ calls (snd second) = calls (snd first)
  /\ peer (snd second) = peer (snd first).
Proof.
  intros Hsetup Hpeer Hmaps Hall Hs first second.
  assert (Hfirst : fst first = Ok tt /\ BaseIntegrator.started (snd first) = true).
  { subst first. rewrite (start_not_started w w1 Hs Hsetup).
    destruct (start_each_run transport repr_bytes self (names w1) w1 Hmaps)
      as [Hp [_ Hacc]]. destruct (Hacc Hall) as [Hf _].
    destruct (BaseIntegrator.start_each transport repr_bytes self (names w1) w1)
      as [[[|] | e] w2]; cbn [fst snd] in *; try discriminate.
    assert (Hok : exists w3,
               match names w2 with
               | [] => BaseIntegrator.start_single transport repr_bytes self w2
               | _ => (Ok true, w2)
               end = (Ok true, w3) /\ peer w3 = peer w1).
    { destruct (names w2).
      - destruct (start_single_run transport repr_bytes self w2) as [Hp3 [_ Hacc3]].
        specialize (Hacc3 Hall).
        destruct (BaseIntegrator.start_single transport repr_bytes self w2)
          as [r3 w3]; cbn [fst snd] in *. subst r3. exists w3. split; congruence.
      - exists w2. split; auto. }
    destruct Hok as [w3 [-> Hp3]].
    destruct (set_started_run true w3) as [w' [-> [_ [_ [Hst _]]]]].
    cbn [fst snd]. split; auto. apply Hst. congruence. }
  destruct Hfirst as [Hf Hst].
  assert (Hsecond : second = (Ok tt, add_log INFO "Connector has already started" (snd first)))
    by (apply start_when_started; exact Hst).
  repeat split; auto; rewrite Hsecond; cbn [snd]; auto.
Qed.

End ControllerClaims.

Section ResumeAndMode.

Variable transport : list http_request -> http_request -> string + http_response.
Variable repr_bytes : string -> string.
Variable repr_json : json -> string.
Variable MULTICONNECTOR_PREFIX : string.

Variable self : BaseIntegrator.t.

(** The resume verb issues its call, whatever the answer. *)
Lemma client_resume_effect w :
  calls (snd (ConnectClient.resume_connector transport repr_bytes
                (BaseIntegrator._client self) None w))
  = (calls w ++ [resume_request self])%list.
Proof.
  unfold ConnectClient.resume_connector, bind. rewrite request_run. cbv zeta.
  change (str_or None (ConnectClient.connector_name (BaseIntegrator._client self)))
    with (BaseIntegrator.connector_unique_name self).
  fold (resume_request self).
  destruct (transport (calls w) (resume_request self)) as [e | response];
    [reflexivity |].
  destruct (status_code response =? 202)%Z; reflexivity.
Qed.

(** C9: [maybe_resume_connector] reads the connector status, and issues
    the resume call if and only if the status is [STOPPED]; on any of the
    other five statuses it returns with the world the status read left. *)
Theorem maybe_resume_iff_stopped w :
  let status := BaseIntegrator.connector_status transport repr_bytes self w in
  let r := BaseIntegrator.maybe_resume_connector transport repr_bytes self w in
  calls (snd r)
  = (calls (snd status)
     ++ match fst status with
        | Ok STOPPED => [resume_request self]
        | _ => []
        end)%list
  /\ (forall t, fst status = Ok t -> t <> STOPPED -> r = (Ok tt, snd status)).
Proof.
  intros status r. subst r.
  unfold BaseIntegrator.maybe_resume_connector, bind.
  fold status.
  destruct status as [[t | e] w1]; cbn [fst snd].
  - pose proof (client_resume_effect w1) as Hres.
    unfold try_except_ConnectApiError.
    destruct t; cbn [TaskStatus_eqb negb ret snd]; rewrite ?app_nil_r;
      try (split; [reflexivity | intros t' Ht Hne; inversion Ht; subst; reflexivity]).
    split.
    + destruct (ConnectClient.resume_connector transport repr_bytes
                  (BaseIntegrator._client self) None w1) as [[[] | e] w2];
        cbn [snd] in *; auto.
      destruct e; cbn; auto.
    + intros t' Ht Hne. inversion Ht; subst. congruence.
  - rewrite app_nil_r. split; [reflexivity | discriminate].
Qed.

(** The instance in another mode and without its sink-only options. *)
Let source_only (m : IntegratorMode) : BaseIntegrator.t :=
  with_mode (with_formatter self (drop_sink (BaseIntegrator.formatter self))) m.

Lemma start_one_source_only m :
  BaseIntegrator.start_one transport repr_bytes (source_only m)
  = BaseIntegrator.start_one transport repr_bytes self.
Proof.
  unfold BaseIntegrator.start_one.
  change (BaseIntegrator.formatter (source_only m))
    with (drop_sink (BaseIntegrator.formatter self)).
  change (BaseIntegrator.config (source_only m)) with (BaseIntegrator.config self).
  rewrite to_dict_drop_sink. reflexivity.
Qed.

Lemma start_single_source_only m :
  BaseIntegrator.start_single transport repr_bytes (source_only m)
  = BaseIntegrator.start_single transport repr_bytes self.
Proof.
  unfold BaseIntegrator.start_single.
  change (BaseIntegrator.formatter (source_only m))
    with (drop_sink (BaseIntegrator.formatter self)).
  change (BaseIntegrator.config (source_only m)) with (BaseIntegrator.config self).
  rewrite to_dict_drop_sink. reflexivity.
Qed.

Lemma patch_one_source_only m :
  BaseIntegrator.patch_one transport repr_bytes repr_json (source_only m)
  = BaseIntegrator.patch_one transport repr_bytes repr_json self.
Proof.
  unfold BaseIntegrator.patch_one.
  change (BaseIntegrator.formatter (source_only m))
    with (drop_sink (BaseIntegrator.formatter self)).
  change (BaseIntegrator.config (source_only m)) with (BaseIntegrator.config self).
  rewrite to_dict_drop_sink. reflexivity.
Qed.

Lemma patch_single_source_only m :
  BaseIntegrator.patch_single transport repr_bytes repr_json (source_only m)
  = BaseIntegrator.patch_single transport repr_bytes repr_json self.
Proof.
  unfold BaseIntegrator.patch_single.
  change (BaseIntegrator.formatter (source_only m))
    with (drop_sink (BaseIntegrator.formatter self)).
  change (BaseIntegrator.config (source_only m)) with (BaseIntegrator.config self).
  rewrite to_dict_drop_sink. reflexivity.
Qed.

Lemma start_each_source_only m ns w :
  BaseIntegrator.start_each transport repr_bytes (source_only m) ns w
  = BaseIntegrator.start_each transport repr_bytes self ns w.
Proof.
  revert w. induction ns as [| n ns IH]; intros w; [reflexivity |].
  cbn [BaseIntegrator.start_each]. rewrite start_one_source_only.
  apply bind_ext. intros [|] w'; auto.
Qed.

Lemma patch_each_source_only m ns w :
  BaseIntegrator.patch_each transport repr_bytes repr_json (source_only m) ns w
  = BaseIntegrator.patch_each transport repr_bytes repr_json self ns w.
Proof.
  revert w. induction ns as [| n ns IH]; intros w; [reflexivity |].
  cbn [BaseIntegrator.patch_each]. rewrite patch_one_source_only.
  apply bind_ext. intros [|] w'; auto.
Qed.

(** The run of [start_connector] and of [patch_connector] is the same for
    an integrator in any mode, including sink, from whose formatter the
    sink-only options are taken away. *)
Lemma controller_run_source_only m w :
  BaseIntegrator.start_connector transport repr_bytes MULTICONNECTOR_PREFIX
    (source_only m) w
  = BaseIntegrator.start_connector transport repr_bytes MULTICONNECTOR_PREFIX self w
  /\ BaseIntegrator.patch_connector transport repr_bytes repr_json MULTICONNECTOR_PREFIX
       (source_only m) w
     = BaseIntegrator.patch_connector transport repr_bytes repr_json MULTICONNECTOR_PREFIX
         self w
  /\ to_dict (BaseIntegrator.formatter (source_only m)) (BaseIntegrator.config self)
       ModeSource
     = to_dict (BaseIntegrator.formatter self) (BaseIntegrator.config self) ModeSource.
Proof.
  split; [| split].
  - unfold BaseIntegrator.start_connector.
    change (BaseIntegrator.setup (source_only m)) with (BaseIntegrator.setup self).
    rewrite start_single_source_only.
    apply bind_ext. intros w0 w0'. destruct (BaseIntegrator.started w0); auto.
    apply bind_ext. intros _ w1. apply bind_ext. intros w1' w1''.
    apply bind_cong; [apply start_each_source_only | reflexivity].
  - unfold BaseIntegrator.patch_connector.
    change (BaseIntegrator.setup (source_only m)) with (BaseIntegrator.setup self).
    rewrite patch_single_source_only.
    apply bind_ext. intros w0 w0'. destruct (negb (BaseIntegrator.started w0)); auto.
    apply bind_ext. intros _ w1. apply bind_ext. intros w1' w1''.
    apply bind_cong; [apply patch_each_source_only | reflexivity].
  - apply to_dict_drop_sink.
Qed.

End ResumeAndMode.

(** ** The claims on concrete runs *)

Lemma transport_created_accepts : accepts_creates transport_created.
Proof.
  intros history rq. eexists. split; [reflexivity |]. left. reflexivity.
Defined.

Lemma start_multi_connector_creates_witness :
  let w1 := snd (BaseIntegrator.setup TwoConnectors fresh_world) in
  calls (snd (BaseIntegrator.start_connector transport_created repr_bytes_plain
                example_prefix TwoConnectors fresh_world))
  = (calls w1 ++ creates_for TwoConnectors (BaseIntegrator.dynamic_config w1)
                   (BaseIntegrator.connector_names example_prefix w1))%list.
Proof.
  intros w1.
  assert (Hmaps : forall n, In n (BaseIntegrator.connector_names example_prefix w1) ->
            exists o, Dict.get (BaseIntegrator.dynamic_config w1) n = Some (JDict o)).
  { intros n Hin. vm_compute in Hin.
    destruct Hin as [<- | [<- | []]]; eexists; vm_compute; reflexivity. }
  assert (Hnd : NoDup (Dict.keys (BaseIntegrator.dynamic_config w1))).
  { vm_compute. repeat constructor; simpl; intuition discriminate. }
  assert (Hmulti : BaseIntegrator.connector_names example_prefix w1 <> [])
    by (vm_compute; discriminate).
  destruct (start_multi_connector_creates transport_created repr_bytes_plain
              example_prefix TwoConnectors fresh_world w1
              eq_refl eq_refl Hmulti Hnd Hmaps) as [_ [_ [_ [Hacc _]]]].
  destruct (Hacc transport_created_accepts) as [_ Hcalls]. exact Hcalls.
Defined.

(** The two create calls of that run: their names and payloads. *)
Example start_multi_connector_payloads :
  map (fun rq => (req_method rq, req_url rq, req_json rq))
      (calls (snd (BaseIntegrator.start_connector transport_created repr_bytes_plain
                     example_prefix TwoConnectors fresh_world)))
  = [ (POST, "http://10.0.0.5:8083/connectors",
       Some (JDict [("name", JStr "multiconnector_a_test-integrator_r7_0f1e2d3c4b5a6978");
                    ("config", JDict [("file", JStr "/tmp/test.jsonl");
                                      ("tasks.max", JInt 1);
                                      ("topic", JStr "topic_a");
                                      ("topic.creation.default.partitions", JInt 10);
                                      ("topic.creation.default.replication.factor", JInt (-1));
                                      ("value.converter",
                                       JStr "org.apache.kafka.connect.json.JsonConverter")])]));
      (POST, "http://10.0.0.5:8083/connectors",
       Some (JDict [("name", JStr "multiconnector_b_test-integrator_r7_0f1e2d3c4b5a6978");
                    ("config", JDict [("file", JStr "/tmp/test.jsonl");
                                      ("tasks.max", JInt 2);
                                      ("topic", JStr "source_test");
                                      ("topic.creation.default.partitions", JInt 10);
                                      ("topic.creation.default.replication.factor", JInt (-1));
                                      ("value.converter",
                                       JStr "org.apache.kafka.connect.json.JsonConverter")])])) ].
Proof. vm_compute. reflexivity. Qed.

Lemma start_twice_idempotent_witness :
  let first := BaseIntegrator.start_connector transport_created repr_bytes_plain
                 example_prefix (Integrator ModeSource related_context) fresh_world in
  let second := BaseIntegrator.start_connector transport_created repr_bytes_plain
                  example_prefix (Integrator ModeSource related_context) (snd first) in
  BaseIntegrator.started (snd first) = true
  /\ BaseIntegrator.started (snd second) = true
  /\ calls (snd second) = calls (snd first).
Proof.
  pose (w1 := snd (BaseIntegrator.setup (Integrator ModeSource related_context) fresh_world)).
  assert (Hmaps : forall n, In n (BaseIntegrator.connector_names example_prefix w1) ->
            exists o, Dict.get (BaseIntegrator.dynamic_config w1) n = Some (JDict o)).
  { intros n Hin. vm_compute in Hin. contradiction. }
  assert (Hpeer : peer w1 <> None) by (vm_compute; discriminate).
  destruct (start_twice_idempotent transport_created repr_bytes_plain example_prefix
              (Integrator ModeSource related_context) fresh_world w1
              eq_refl Hpeer Hmaps transport_created_accepts eq_refl)
    as [_ [H1 [_ [H2 [H3 _]]]]].
  intros first second. split; [exact H1 | split; [exact H2 | exact H3]].
Defined.

(** A first start against a server that fails leaves the integrator not
    started, and the second start tries again. *)
Example start_twice_failing_server :
  let first := BaseIntegrator.start_connector transport_error repr_bytes_plain
                 example_prefix (Integrator ModeSource related_context) fresh_world in
  let second := BaseIntegrator.start_connector transport_error repr_bytes_plain
                  example_prefix (Integrator ModeSource related_context) (snd first) in
  BaseIntegrator.started (snd first) = false
  /\ length (calls (snd first)) = 1%nat
  /\ length (calls (snd second)) = 2%nat.
Proof. vm_compute. auto. Qed.

(** At the controller: without a connect-client relation the endpoint
    list is empty; [start_connector] raises nothing, the create call goes to
    the HTTP library with a URL that has no host, and the failure of that
    call is logged as a failed start. *)
Example start_without_endpoints :
  let r := BaseIntegrator.start_connector transport_no_scheme repr_bytes_plain
             example_prefix (Integrator ModeSource unrelated_context) fresh_world in
  fst r = Ok tt
  /\ map req_url (calls (snd r)) = ["/connectors"]
  /\ BaseIntegrator.started (snd r) = false.
Proof. vm_compute. auto. Qed.

(** Resume on the six statuses. *)
Example maybe_resume_stopped :
  map (fun rq => (req_method rq, req_url rq))
      (calls (snd (BaseIntegrator.maybe_resume_connector (transport_in_state "STOPPED")
                     repr_bytes_plain (Integrator ModeSource related_context) fresh_world)))
  = [ (GET, "http://10.0.0.5:8083/connectors/test-integrator_r7_0f1e2d3c4b5a6978/status");
      (PUT, "http://10.0.0.5:8083/connectors/test-integrator_r7_0f1e2d3c4b5a6978/resume") ].
Proof. vm_compute. reflexivity. Qed.

Example maybe_resume_other_statuses :
  forall state, In state ["RUNNING"; "PAUSED"; "FAILED"; "UNASSIGNED"; "UNKNOWN"] ->
    map req_method
        (calls (snd (BaseIntegrator.maybe_resume_connector (transport_in_state state)
                       repr_bytes_plain (Integrator ModeSource related_context) fresh_world)))
    = [GET].
Proof.
  intros state Hin. simpl in Hin.
  repeat (destruct Hin as [<- | Hin]; [vm_compute; reflexivity |]). contradiction.
Qed.

(** The test integrator in sink mode: the payload holds the
    source-only [topic], and not the sink-only [key.converter]. *)
Example start_in_sink_mode_payload :
  map payload_of
      (calls (snd (BaseIntegrator.start_connector transport_created repr_bytes_plain
                     example_prefix (Integrator ModeSink related_context) fresh_world)))
  = [ Some (JDict [("file", JStr "/tmp/test.jsonl");
                   ("tasks.max", JInt 1);
                   ("topic", JStr "source_test");
                   ("topic.creation.default.partitions", JInt 10);
                   ("topic.creation.default.replication.factor", JInt (-1));
                   ("value.converter", JStr "org.apache.kafka.connect.json.JsonConverter");
                   ("connector.class",
                    JStr "org.apache.kafka.connect.file.FileStreamSinkConnector")]) ].
Proof. vm_compute. reflexivity. Qed.

(** The connector status on the responses the specification lists. *)
Example connector_status_running :
  fst (ConnectClient.connector_status (transport_in_state "RUNNING") repr_bytes_plain
         related_client fresh_world) = Ok RUNNING.
Proof. reflexivity. Qed.

Example connector_status_404 :
  fst (ConnectClient.connector_status
         (fun _ _ => inr {| status_code := 404; content := "not found"; json_body := None |})
         repr_bytes_plain related_client fresh_world) = Ok UNASSIGNED.
Proof. reflexivity. Qed.

Example connector_status_transport_failure :
  fst (ConnectClient.connector_status transport_refused repr_bytes_plain
         related_client fresh_world) = Ok UNKNOWN.
Proof. reflexivity. Qed.

(** Through the controller: a started integrator whose server cannot be
    reached raises from its [task_status] property. *)
Example controller_task_status_raises :
  let started_world :=
    {| calls := []; logs := [];
       peer := Some {| started_field := Some "true"; config_field := None |} |} in
  fst (BaseIntegrator.task_status transport_refused repr_bytes_plain repr_json_plain
         example_prefix (Integrator ModeSource related_context) started_world)
  = Raise (ConnectApiError
             ("Connect API call /connectors/test-integrator_r7_0f1e2d3c4b5a6978/tasks failed: "
              ++ "Connection refused")).
Proof. vm_compute. reflexivity. Qed.

(** * Further properties of the code *)

(** ** [TaskStatus] *)

(** X1: the constructor of the enum and the value of a member are inverse: a
    document is accepted exactly when it is the string value of a member,
    and the member it gives is that one. *)
Theorem TaskStatus_of_value_inverse v t :
  TaskStatus_of v = Ok t <-> v = JStr (TaskStatus_value t).
Proof.
  split.
  - destruct v as [| | | s | |]; try discriminate.
    unfold TaskStatus_of, TaskStatus_members. cbn [find].
    repeat match goal with
           | |- context [String.eqb s ?c] =>
               destruct (String.eqb_spec s c) as [-> | _];
               [intros H; inversion H; reflexivity |]
           end.
    discriminate.
  - intros ->. now destruct t.
Qed.

(** ** [to_config_yaml] *)

(** Two loop bodies that agree on the elements of a list give the same loop. *)
Lemma fold_left_ext_in {A B} (f g : A -> B -> A) l :
  (forall b, In b l -> forall a, f a b = g a b) ->
  forall a, fold_left f l a = fold_left g l a.
Proof.
  induction l as [| b l IH]; intros H a; cbn [fold_left]; auto.
  rewrite (H b (or_introl eq_refl)). apply IH.
  intros b' Hin. apply H. now right.
Qed.

Section YamlFacts.

Lemma to_config_yaml_step_other options k a key :
  key <> k -> Dict.get (to_config_yaml_step options (k, a)) key = Dict.get options key.
Proof.
  intros Hne. unfold to_config_yaml_step.
  destruct (startswith k "__"); auto.
  destruct a as [o |]; auto.
  destruct (configurable o); cbn [negb]; auto.
  now apply get_set_other.
Qed.

Lemma fold_to_config_yaml_other cls : forall options key,
  ~ In key (map fst cls) ->
  Dict.get (fold_left to_config_yaml_step cls options) key = Dict.get options key.
Proof.
  induction cls as [| [k a] cls IH]; intros options key Hnot; cbn [fold_left]; auto.
  rewrite IH by (intros Hin; apply Hnot; now right).
  apply to_config_yaml_step_other. intros ->. apply Hnot. now left.
Qed.

(** What the exported options hold under the name of a class attribute,
    the names of the class being distinct. *)
Lemma to_config_yaml_get cls : forall options k a,
  NoDup (map fst cls) ->
  In (k, a) cls ->
  Dict.get (fold_left to_config_yaml_step cls options) k =
  Dict.get (to_config_yaml_step options (k, a)) k.
Proof.
  induction cls as [| [k0 a0] cls IH]; intros options k a Hnd Hin; [contradiction |].
  cbn [map] in Hnd. inversion Hnd as [| ? ? Hnotin Hnd']; subst.
  cbn [fold_left]. destruct Hin as [Heq | Hin].
  - inversion Heq; subst. now apply fold_to_config_yaml_other.
  - assert (Hne : k <> k0).
    { intros ->. apply Hnotin. apply in_map_iff. exists (k0, a). auto. }
    rewrite (IH _ k a Hnd' Hin).
    unfold to_config_yaml_step at 1 3.
    destruct (startswith k "__").
    + now apply to_config_yaml_step_other.
    + destruct a as [o |]; [| now apply to_config_yaml_step_other].
      destruct (configurable o); cbn [negb].
      * now rewrite !get_set_same.
      * now apply to_config_yaml_step_other.
Qed.

Lemma get_map_values {V W} (f : V -> W) (d : Dict.t V) k :
  Dict.get (map (fun entry => (fst entry, f (snd entry))) d) k
  = option_map f (Dict.get d k).
Proof.
  induction d as [| [k' v] d IH]; cbn; auto.
  destruct (String.eqb k k'); auto.
Qed.

Lemma yaml_entry_default o : Dict.get (yaml_entry o) "default" = Some (default o).
Proof.
  unfold yaml_entry. destruct (str_truthy (description o)); reflexivity.
Qed.

End YamlFacts.

(** The entry of a configurable option whose name is not special. *)
Lemma to_config_yaml_options_configurable cls k o :
  NoDup (map fst cls) ->
  In (k, AttrOption o) cls ->
  startswith k "__" = false ->
  configurable o = true ->
  Dict.get (to_config_yaml_options cls) k = Some (yaml_entry o).
Proof.
  intros Hnd Hin Hk Hc. unfold to_config_yaml_options.
  rewrite (to_config_yaml_get cls Dict.empty k (AttrOption o) Hnd Hin).
  unfold to_config_yaml_step. rewrite Hk, Hc. cbn [negb].
  apply get_set_same.
Qed.

(** X2: the schema lists exactly the configurable class variables: with
    distinct attribute names, a declared option is exported, under its name
    and with its default and a type tag, exactly when it is configurable and
    its name is not special; this holds for an option of mode ["none"] too. *)
Theorem to_config_yaml_exports_configurable cls k o :
  NoDup (map fst cls) ->
  In (k, AttrOption o) cls ->
  Dict.get (to_config_yaml_options cls) k =
  if negb (startswith k "__") && configurable o then Some (yaml_entry o) else None.
Proof.
  intros Hnd Hin. unfold to_config_yaml_options.
  rewrite (to_config_yaml_get cls Dict.empty k (AttrOption o) Hnd Hin).
  unfold to_config_yaml_step.
  destruct (startswith k "__"); cbn [negb andb]; auto.
  destruct (configurable o); cbn [negb]; auto.
  apply get_set_same.
Qed.

Lemma to_config_yaml_exports_configurable_witness :
  Dict.get (to_config_yaml_options ConfigFormatter) "topic"
  = Some [("default", JStr "test"); ("type", JStr "string")]
  /\ Dict.get (to_config_yaml_options ConfigFormatter) "tasks_max" = None.
Proof.
  assert (Hnd : NoDup (map fst ConfigFormatter)).
  { cbn [map fst ConfigFormatter]. repeat constructor; cbn [In]; intuition discriminate. }
  split.
  - apply (to_config_yaml_exports_configurable ConfigFormatter "topic" topic Hnd).
    cbn. tauto.
  - apply (to_config_yaml_exports_configurable ConfigFormatter "tasks_max" tasks_max Hnd).
    cbn. tauto.
Defined.

(** X3: the defaults of the schema are the defaults of the formatter: the
    payload for a charm configuration that holds every exported option at
    its exported default is the payload for an empty charm configuration. *)
Theorem to_dict_yaml_defaults cls m :
  NoDup (map fst cls) ->
  to_dict cls (yaml_defaults cls) m = to_dict cls Dict.empty m.
Proof.
  intros Hnd. unfold to_dict.
  assert (Hstep : forall k o, In (k, o) (field_items cls) ->
            forall ret, to_dict_step (yaml_defaults cls) m ret (k, o)
                        = to_dict_step Dict.empty m ret (k, o)).
  { intros k o Hin ret.
    assert (Hcls : In (k, AttrOption o) cls /\ startswith k "__" = false).
    { clear Hnd. induction cls as [| [k0 a0] cls IH]; [contradiction |].
      cbn [field_items is_field] in Hin.
      destruct a0 as [o0 |].
      - destruct (startswith k0 "__") eqn:Hk0.
        + destruct (IH Hin). split; auto. now right.
        + destruct Hin as [Heq | Hin].
          * inversion Heq; subst. split; auto. now left.
          * destruct (IH Hin). split; auto. now right.
      - destruct (IH Hin). split; auto. now right. }
    destruct Hcls as [Hcls Hk].
    unfold to_dict_step.
    destruct (is_none (mode o)); auto.
    destruct (negb (is_both (mode o)) && negb (mode_eqb (mode o) m)); auto.
    destruct (configurable o) eqn:Hc; cbn [andb]; auto.
    unfold Dict.mem, yaml_defaults.
    rewrite (get_map_values
               (fun e : Dict.t json =>
                  match Dict.get e "default" with Some v => v | None => JNull end)).
    rewrite (to_config_yaml_options_configurable cls k o Hnd Hcls Hk Hc).
    cbn [option_map Dict.get Dict.empty]. now rewrite yaml_entry_default. }
  apply fold_left_ext_in. intros [k o] Hin ret. now apply Hstep.
Qed.

Lemma to_dict_yaml_defaults_witness :
  to_dict ConfigFormatter (yaml_defaults ConfigFormatter) ModeSource
  = to_dict ConfigFormatter Dict.empty ModeSource.
Proof.
  apply to_dict_yaml_defaults.
  cbn [map fst ConfigFormatter]. repeat constructor; cbn [In]; intuition discriminate.
Defined.

(** ** Endpoints and connector names *)

(** The first piece of a split: it holds no separator, and the string is
    the piece alone or the piece, a separator, and the rest. *)
Lemma str_split_first sep s :
  match str_split sep s with
  | p :: ps =>
      str_contains (String sep EmptyString) p = false
      /\ match ps with
         | [] => s = p
         | _ => exists rest, s = p ++ String sep rest
         end
  | [] => False
  end.
Proof.
  induction s as [| c s IH]; cbn [str_split].
  - split; reflexivity.
  - destruct (Ascii.eqb_spec c sep) as [-> | Hne].
    + split; [reflexivity |].
      pose proof (str_split_not_nil sep s) as Hnn.
      destruct (str_split sep s); [congruence |]. now exists s.
    + destruct (str_split sep s) as [| p ps]; [contradiction |].
      destruct IH as [Hp Hs]. split.
      * cbn [str_contains String.prefix]. rewrite Hp.
        destruct (ascii_dec sep c) as [E | E]; [congruence | reflexivity].
      * destruct ps as [| p' ps'].
        -- now subst.
        -- destruct Hs as [rest ->]. now exists rest.
Qed.

(** X4: [ConnectClient.endpoint] returns, without raising, the text of the
    endpoint list up to its first comma: the result holds no comma, and the
    list is the result alone or the result, a comma, and other endpoints. *)
Theorem endpoint_first_piece self :
  exists e,
    ConnectClient.endpoint self = Ok e
    /\ str_contains "," e = false
    /\ (endpoints (ConnectClient.client_context self) = e
        \/ exists rest, endpoints (ConnectClient.client_context self) = e ++ "," ++ rest).
Proof.
  exists (first_endpoint (ConnectClient.client_context self)).
  split; [apply endpoint_ok |]. unfold first_endpoint.
  pose proof (str_split_first "," (endpoints (ConnectClient.client_context self))) as H.
  destruct (str_split "," (endpoints (ConnectClient.client_context self))) as [| p ps];
    [contradiction |].
  destruct H as [Hp Hs]. cbn [hd]. split; auto.
  destruct ps; [now left | right]. destruct Hs as [rest ->]. now exists rest.
Qed.

Example endpoint_of_two :
  ConnectClient.endpoint related_client = Ok "http://10.0.0.5:8083".
Proof. reflexivity. Qed.

Lemma append_cancel_l (p a b : string) : p ++ a = p ++ b -> a = b.
Proof.
  induction p as [| c p IH]; cbn; auto. intros H. inversion H. auto.
Qed.

Lemma append_length (a b : string) :
  String.length (a ++ b) = (String.length a + String.length b)%nat.
Proof. induction a as [| c a IH]; cbn; auto. Qed.

Lemma append_cancel_r (s a b : string) : a ++ s = b ++ s -> a = b.
Proof.
  intros H.
  assert (Hlen : String.length a = String.length b).
  { apply (f_equal String.length) in H. rewrite !append_length in H. lia. }
  revert b H Hlen. induction a as [| c a IH]; intros [| d b] H Hlen;
    try discriminate; auto.
  cbn in H, Hlen. inversion H. f_equal. apply IH; auto.
Qed.

(** The decimal rendering of an integer tells the integer. *)
Lemma str_of_Z_inj a b : str_of_Z a = str_of_Z b -> a = b.
Proof.
  unfold str_of_Z. intros H.
  assert (Hnn : forall z, Z.to_int z <> Decimal.Pos Decimal.Nil
                          /\ Z.to_int z <> Decimal.Neg Decimal.Nil).
  { intros [| p | p]; cbn; split; try discriminate;
      intros E; inversion E as [E'];
      now apply DecimalPos.Unsigned.to_uint_nonnil in E'. }
  apply DecimalZ.to_int_inj.
  destruct (Hnn a) as [Ha1 Ha2]. destruct (Hnn b) as [Hb1 Hb2].
  pose proof (NilZero.isi _ Ha1 Ha2) as Ia. pose proof (NilZero.isi _ Hb1 Hb2) as Ib.
  rewrite H in Ia. congruence.
Qed.

(** X5: two relations of one integrator never get the same connector name:
    with the same integrator name and model, different relation ids give
    different unique names. *)
Theorem connector_unique_name_relation self self' id id' :
  BaseIntegrator.name self = BaseIntegrator.name self' ->
  BaseIntegrator.model_uuid self = BaseIntegrator.model_uuid self' ->
  relation (BaseIntegrator._client_context self) = Some id ->
  relation (BaseIntegrator._client_context self') = Some id' ->
  id <> id' ->
  BaseIntegrator.connector_unique_name self <> BaseIntegrator.connector_unique_name self'.
Proof.
  unfold BaseIntegrator.connector_unique_name. intros Hn Hu -> -> Hne H.
  rewrite Hn, Hu in H. apply append_cancel_l in H. apply (append_cancel_l "_r") in H.
  apply append_cancel_r in H. now apply str_of_Z_inj in H.
Qed.

Lemma connector_unique_name_relation_witness :
  BaseIntegrator.connector_unique_name (Integrator ModeSource related_context)
  <> BaseIntegrator.connector_unique_name
       (Integrator ModeSource {| relation := Some 8%Z; relation_data := [] |}).
Proof.
  apply (connector_unique_name_relation (Integrator ModeSource related_context)
           (Integrator ModeSource {| relation := Some 8%Z; relation_data := [] |})
           7%Z 8%Z); try reflexivity.
  discriminate.
Defined.

(** ** The other verbs of the client *)

Section VerbFacts.

Variable transport : list http_request -> http_request -> string + http_response.
Variable repr_bytes : string -> string.
Variable repr_json : json -> string.

Ltac run_verb code :=
  unfold verb_outcome, bind; rewrite request_run; cbv zeta;
  match goal with
  | |- context [transport ?h ?rq] =>
      destruct (transport h rq) as [e | response];
      [ repeat split; eexists; reflexivity
      | destruct (Z.eqb_spec (status_code response) code) as [E | E];
        cbn [negb fst snd calls peer add_log add_call];
        repeat split; auto; try congruence; try discriminate; try contradiction ]
  end.

(** X6: the verbs that change the remote connector each issue one call and
    succeed on one status: 202 for resume, 204 for stop and for delete,
    200 for patch; any other status, and a failure of the transport,
    raises a [ConnectApiError]. *)
Theorem mutating_verbs_outcome self connector_name connector_config w :
  let name := str_or connector_name (ConnectClient.connector_name self) in
  verb_outcome transport repr_bytes w
    (client_request self PUT ("connectors/" ++ name ++ "/resume") None None)
    202 "Unable to resume the connector, details: "
    (ConnectClient.resume_connector transport repr_bytes self connector_name w)
  /\ verb_outcome transport repr_bytes w
       (client_request self PUT ("connectors/" ++ name ++ "/stop") None None)
       204 "Unable to stop the connector, details: "
       (ConnectClient.stop_connector transport repr_bytes self connector_name w)
  /\ verb_outcome transport repr_bytes w
       (client_request self DELETE ("connectors/" ++ name) None None)
       204 "Unable to remove the connector, details: "
       (ConnectClient.delete_connector transport repr_bytes self connector_name w)
  /\ verb_outcome transport repr_bytes w
       (client_request self PATCH ("connectors/" ++ name ++ "/config")
          (Some (JDict connector_config)) None)
       200 "Unable to patch the connector, details: "
       (ConnectClient.patch_connector transport repr_bytes repr_json self
          connector_config connector_name w).
Proof.
  intros name. subst name. split; [| split; [| split]].
  - unfold ConnectClient.resume_connector. run_verb 202%Z.
  - unfold ConnectClient.stop_connector. run_verb 204%Z.
  - unfold ConnectClient.delete_connector. run_verb 204%Z.
  - unfold ConnectClient.patch_connector. run_verb 200%Z.
Qed.

(** X7: the two status verbs only read: [connector_status] issues one [GET]
    with the ten seconds timeout, [task_status] one or two of them, and
    neither touches the peer data. *)
Theorem status_verbs_only_read self connector_name w :
  (let r := ConnectClient.connector_status transport repr_bytes self w in
   peer (snd r) = peer w
   /\ exists rq, calls (snd r) = (calls w ++ [rq])%list /\ status_read self rq)
  /\ (let r := ConnectClient.task_status transport repr_bytes repr_json self
                 connector_name w in
      peer (snd r) = peer w
      /\ exists new, calls (snd r) = (calls w ++ new)%list
                     /\ (1 <= length new <= 2)%nat
                     /\ Forall (status_read self) new).
Proof.
  split.
  - unfold ConnectClient.connector_status, bind, try_except_ConnectApiError.
    rewrite request_run. cbv zeta.
    destruct (transport (calls w) _) as [e | response].
    + split; [reflexivity |]. eexists. split; [reflexivity |]. eexists. reflexivity.
    + unfold ConnectClient.not_200_404, ret, lift, log.
      destruct (negb _);
        [| destruct (status_code response =? 404)%Z;
           [| destruct (json_of response) as [body | e];
              [destruct (json_get body "connector" (JDict [])) as [c | e];
               [destruct (json_get c "state" (JStr "UNASSIGNED")) as [s | e] | ] | ]]];
        (split; [reflexivity |]; eexists; split; [reflexivity |]; eexists; reflexivity).
  - unfold ConnectClient.task_status, bind. rewrite request_run. cbv zeta.
    destruct (transport (calls w) _) as [e | response].
    + split; [reflexivity |]. eexists. split; [reflexivity |].
      split; [cbn; lia |]. repeat constructor. eexists. reflexivity.
    + unfold ConnectClient.not_200_404, ret, lift, log.
      assert (Hone : forall (x : result TaskStatus) lg,
                let w1 := fold_right (fun l acc => add_log (fst l) (snd l) acc)
                            (add_log DEBUG
                               (method_name GET ++ " - " ++
                                req_url (client_request self GET
                                  ("connectors/" ++
                                   str_or connector_name (ConnectClient.connector_name self)
                                   ++ "/tasks") None (Some 10%Z))
                                ++ ": " ++ repr_bytes (content response))
                               (add_call (client_request self GET
                                  ("connectors/" ++
                                   str_or connector_name (ConnectClient.connector_name self)
                                   ++ "/tasks") None (Some 10%Z)) w)) lg in
                peer (snd (x, w1)) = peer w
                /\ exists new, calls (snd (x, w1)) = (calls w ++ new)%list
                               /\ (1 <= length new <= 2)%nat
                               /\ Forall (status_read self) new).
      { intros x lg w1. subst w1. cbn [snd].
        induction lg as [| l lg IH]; cbn [fold_right].
        - split; [reflexivity |]. eexists. split; [reflexivity |].
          split; [cbn; lia |]. repeat constructor. eexists. reflexivity.
        - exact IH. }
      destruct (negb _); [exact (Hone _ [(ERROR, _)]) |].
      destruct (status_code response =? 404)%Z; [exact (Hone _ []) |].
      destruct (json_of response) as [tasks | e]; [| exact (Hone _ [])].
      destruct (negb (json_truthy tasks)); [exact (Hone _ []) |].
      destruct (json_first tasks) as [task0 | e]; [| exact (Hone _ [])].
      destruct (json_get task0 "id" (JDict [])) as [id | e]; [| exact (Hone _ [])].
      destruct (json_get id "task" (JInt 0)) as [task_id | e]; [| exact (Hone _ [])].
      rewrite request_run. cbv zeta. cbn [calls add_log add_call].
      assert (Htwo : forall (x : result TaskStatus) w2,
                peer w2 = peer w ->
                (exists rq2, status_read self rq2 /\
                   calls w2 = ((calls w ++ [client_request self GET
                                  ("connectors/" ++
                                   str_or connector_name (ConnectClient.connector_name self)
                                   ++ "/tasks") None (Some 10%Z)]) ++ [rq2])%list) ->
                peer (snd (x, w2)) = peer w
                /\ exists new, calls (snd (x, w2)) = (calls w ++ new)%list
                               /\ (1 <= length new <= 2)%nat
                               /\ Forall (status_read self) new).
      { intros x w2 Hp [rq2 [Hrq2 Hc]]. cbn [snd]. split; auto.
        eexists. split; [rewrite Hc, <- app_assoc; reflexivity |].
        split; [cbn; lia |]. repeat constructor; auto. eexists. reflexivity. }
      destruct (transport _ _) as [e | response2].
      * apply Htwo; [reflexivity |]. eexists. split; [eexists; reflexivity | reflexivity].
      * destruct (status_code response2 =? 404)%Z;
          [| destruct (negb (status_code response2 =? 200)%Z);
             [| destruct (json_of response2) as [body | e];
                [destruct (json_get body "state" (JStr "UNASSIGNED")) as [s | e] | ]]];
          (apply Htwo; [reflexivity |]; eexists;
           split; [eexists; reflexivity | reflexivity]).
Qed.

End VerbFacts.

(** ** The persisted state of the controller *)

Lemma prefix_append p s : String.prefix p (p ++ s) = true.
Proof.
  induction p as [| c p IH]; cbn [String.append String.prefix].
  - now destruct s.
  - destruct (Ascii.ascii_dec c c); [exact IH | congruence].
Qed.

Lemma get_remove {V} (d : Dict.t V) k : Dict.get (Dict.remove d k) k = None.
Proof.
  induction d as [| [k' v'] d IH]; cbn [Dict.remove Dict.get]; auto.
  destruct (String.eqb k k') eqn:E; auto.
  cbn [Dict.get]. now rewrite E.
Qed.

(** X8: the flag [started] reads back what the setter stored when there is a
    peer relation; without one the setter does nothing and the flag reads
    false.  The setter leaves the dynamic configuration and the REST calls
    alone. *)
Theorem started_set_then_get val w :
  let r := BaseIntegrator.set_started val w in
  fst r = Ok tt
  /\ BaseIntegrator.started (snd r) = match peer w with Some _ => val | None => false end
  /\ (peer w = None -> snd r = w)
  /\ BaseIntegrator.dynamic_config (snd r) = BaseIntegrator.dynamic_config w
  /\ calls (snd r) = calls w.
Proof.
  unfold BaseIntegrator.set_started, bind, get_world, set_peer, ret.
  destruct w as [c l [p |]]; cbn [peer].
  - destruct val; cbn; repeat split; auto; discriminate.
  - cbn. repeat split; auto.
Qed.

Section ConfigureFacts.

Variable repr_json : json -> string.
Variable MULTICONNECTOR_PREFIX : string.
Variable self : BaseIntegrator.t.

Let configure := BaseIntegrator.configure repr_json MULTICONNECTOR_PREFIX self.
Let names := BaseIntegrator.connector_names MULTICONNECTOR_PREFIX.

(** The key [configure] stores the connector named [n] under. *)
Let connector_id (n : json) : string :=
  MULTICONNECTOR_PREFIX ++ "_" ++ ConnectClient.format_json repr_json n
    ++ "_" ++ BaseIntegrator.connector_unique_name self.

(** A stored connector configuration: a mapping without the key [name]. *)
Let stored (d : Dict.t json) (k : string) : Prop :=
  exists o, Dict.get d k = Some (JDict o) /\ Dict.get o "name" = None.

Lemma configure_list_named l : forall acc w,
  (forall cfg, In cfg l -> Dict.mem cfg "name" = true) ->
  exists acc',
    BaseIntegrator.configure_list repr_json MULTICONNECTOR_PREFIX self acc l w = (Ok acc', w)
    /\ (forall k, Dict.mem acc k = true -> Dict.mem acc' k = true)
    /\ (forall k, stored acc k -> stored acc' k)
    /\ (forall cfg n, In cfg l -> Dict.get cfg "name" = Some n -> stored acc' (connector_id n)).
Proof.
  induction l as [| cfg l IH]; intros acc w Hnamed.
  - exists acc. cbn [BaseIntegrator.configure_list]. unfold ret.
    repeat split; auto. intros cfg n [].
  - cbn [BaseIntegrator.configure_list]. unfold bind, BaseIntegrator.configure_one.
    pose proof (Hnamed cfg (or_introl eq_refl)) as Hcfg. unfold Dict.mem in Hcfg.
    destruct (Dict.get cfg "name") as [n0 |] eqn:En; [| discriminate].
    unfold ret. fold (connector_id n0).
    set (acc1 := Dict.set acc (connector_id n0) (JDict (Dict.remove cfg "name"))).
    destruct (IH acc1 w) as [acc' [Hrun [Hmem [Hst Hnew]]]].
    { intros cfg' Hin. apply Hnamed. now right. }
    assert (Hst1 : forall k, stored acc k -> stored acc1 k).
    { intros k [o [Hk Ho]]. unfold stored, acc1.
      destruct (String.eqb_spec k (connector_id n0)) as [-> | Hne].
      - rewrite get_set_same. eexists. split; [reflexivity | apply get_remove].
      - rewrite get_set_other by auto. eauto. }
    exists acc'. split; [exact Hrun |]. split; [| split].
    + intros k Hk. apply Hmem. unfold acc1. rewrite mem_set, Hk. apply orb_true_r.
    + intros k Hk. auto.
    + intros cfg' n [<- | Hin] Hn.
      * rewrite En in Hn. inversion Hn; subst n0. apply Hst. unfold stored, acc1.
        rewrite get_set_same. eexists. split; [reflexivity | apply get_remove].
      * eapply Hnew; eauto.
Qed.

Lemma configure_list_unnamed l : forall acc w,
  (exists cfg, In cfg l /\ Dict.get cfg "name" = None) ->
  BaseIntegrator.configure_list repr_json MULTICONNECTOR_PREFIX self acc l w =
  (Raise KeyError,
   add_log ERROR "List of connectors should provide a 'name' key to differentiate them" w).
Proof.
  induction l as [| cfg l IH]; intros acc w [cfg0 [Hin Hnone]]; [destruct Hin |].
  cbn [BaseIntegrator.configure_list]. unfold bind at 1.
  unfold BaseIntegrator.configure_one.
  destruct (Dict.get cfg "name") as [n0 |] eqn:En.
  - unfold ret at 1. apply IH. destruct Hin as [<- | Hin]; [congruence |]. eauto.
  - reflexivity.
Qed.

(** X9: [configure] with one dictionary behaves as [dict.update] on the stored
    dynamic configuration: a key of the argument reads back the value the
    argument gives it, any other key keeps its value.  Nothing is stored
    without a peer relation.  The flag [started] and the REST calls are
    left alone, and the call never raises. *)
Theorem configure_dict_updates d w :
  let r := configure (inl d) w in
  fst r = Ok tt
  /\ calls (snd r) = calls w
  /\ BaseIntegrator.started (snd r) = BaseIntegrator.started w
  /\ (peer w = None -> snd r = w)
  /\ (peer w <> None ->
      forall k, Dict.get (BaseIntegrator.dynamic_config (snd r)) k =
                match Dict.get (rev d) k with
                | Some v => Some v
                | None => Dict.get (BaseIntegrator.dynamic_config w) k
                end).
Proof.
  unfold configure, BaseIntegrator.configure, bind, get_world, set_peer, ret.
  destruct w as [c l [p |]]; cbn [peer fst snd calls].
  - repeat split; auto; try discriminate.
    intros _ k. unfold BaseIntegrator.dynamic_config at 1. cbn [peer config_field].
    apply get_merge.
  - repeat split; auto. congruence.
Qed.

(** X10: [configure] with a list of dictionaries that all have a [name]: every
    one of them becomes a connector of the integrator, under the key made
    of the prefix, the name and the unique name, and what is stored under
    that key is a mapping without the key [name].  Connectors stored
    before stay connectors. *)
Theorem configure_list_registers l w :
  peer w <> None ->
  (forall cfg, In cfg l -> Dict.mem cfg "name" = true) ->
  let r := configure (inr l) w in
  fst r = Ok tt
  /\ calls (snd r) = calls w
  /\ BaseIntegrator.started (snd r) = BaseIntegrator.started w
  /\ (forall n, In n (names w) -> In n (names (snd r)))
  /\ (forall cfg n, In cfg l -> Dict.get cfg "name" = Some n ->
        In (connector_id n) (names (snd r))
        /\ exists o, BaseIntegrator.overrides_of (snd r) (connector_id n) = Ok o
                     /\ Dict.get o "name" = None).
Proof.
  intros Hpeer Hnamed.
  unfold configure, BaseIntegrator.configure, bind, get_world.
  destruct (peer w) as [p |] eqn:Ep; [| congruence].
  destruct (configure_list_named l (BaseIntegrator.dynamic_config w) w Hnamed)
    as [acc' [Hrun [Hmem [_ Hnew]]]].
  rewrite Hrun. unfold set_peer. cbn [fst snd calls].
  assert (Hd : BaseIntegrator.dynamic_config
                 {| calls := calls w; logs := logs w;
                    peer := Some {| started_field := started_field p;
                                    config_field := Some acc' |} |} = acc')
    by reflexivity.
  split; [reflexivity |]. split; [reflexivity |]. split; [| split].
  - unfold BaseIntegrator.started. cbn [peer started_field]. now rewrite Ep.
  - intros n. unfold names, BaseIntegrator.connector_names. rewrite Hd.
    rewrite !filter_In. intros [Hin Hp]. split; auto.
    apply mem_In_keys. apply Hmem. now apply mem_In_keys.
  - intros cfg n Hin Hn. destruct (Hnew cfg n Hin Hn) as [o [Hget Ho]]. split.
    + unfold names, BaseIntegrator.connector_names. rewrite Hd.
      apply filter_In. split.
      * apply mem_In_keys. unfold Dict.mem. now rewrite Hget.
      * unfold startswith, connector_id. apply prefix_append.
    + exists o. split; auto. unfold BaseIntegrator.overrides_of. rewrite Hd.
      now rewrite Hget.
Qed.

(** X11: [configure] with a list in which a dictionary has no [name] raises
    [KeyError] after an error record, and stores nothing: the dynamic
    configuration and the connectors are those of before. *)
Theorem configure_list_requires_name l w cfg :
  peer w <> None ->
  In cfg l ->
  Dict.get cfg "name" = None ->
  let r := configure (inr l) w in
  fst r = Raise KeyError
  /\ peer (snd r) = peer w
  /\ calls (snd r) = calls w
  /\ logs (snd r) =
     (logs w ++ [(ERROR, "List of connectors should provide a 'name' key to differentiate them")])%list.
Proof.
  intros Hpeer Hin Hnone.
  unfold configure, BaseIntegrator.configure, bind, get_world.
  destruct (peer w) as [p |] eqn:Ep; [| congruence].
  rewrite configure_list_unnamed by eauto.
  cbn [fst snd peer calls logs add_log]. repeat split; auto.
Qed.

End ConfigureFacts.

Lemma configure_list_registers_witness :
  In "multiconnector_a_test-integrator_r7_0f1e2d3c4b5a6978"
     (BaseIntegrator.connector_names example_prefix
        (snd (BaseIntegrator.configure repr_json_plain example_prefix
                (Integrator_class ModeSource related_context)
                (inr [ [("name", JStr "a"); ("topic", JStr "topic_a")];
                       [("name", JStr "b"); ("tasks.max", JInt 2)] ])
                fresh_world))).
Proof.
  assert (Hpeer : peer fresh_world <> None) by (vm_compute; discriminate).
  assert (Hnamed : forall cfg,
            In cfg [ [("name", JStr "a"); ("topic", JStr "topic_a")];
                     [("name", JStr "b"); ("tasks.max", JInt 2)] ] ->
            Dict.mem cfg "name" = true).
  { intros cfg [<- | [<- | []]]; reflexivity. }
  destruct (configure_list_registers repr_json_plain example_prefix
              (Integrator_class ModeSource related_context) _ fresh_world Hpeer Hnamed)
    as [_ [_ [_ [_ H]]]].
  destruct (H [("name", JStr "a"); ("topic", JStr "topic_a")] (JStr "a")
              (or_introl eq_refl) eq_refl) as [Hin _].
  exact Hin.
Defined.

Lemma configure_list_requires_name_witness :
  let r := BaseIntegrator.configure repr_json_plain example_prefix
             (Integrator_class ModeSource related_context)
             (inr [ [("name", JStr "a"); ("topic", JStr "topic_a")];
                    [("tasks.max", JInt 2)] ])
             fresh_world in
  fst r = Raise KeyError /\ peer (snd r) = peer fresh_world.
Proof.
  assert (Hpeer : peer fresh_world <> None) by (vm_compute; discriminate).
  destruct (configure_list_requires_name repr_json_plain example_prefix
              (Integrator_class ModeSource related_context)
              [ [("name", JStr "a"); ("topic", JStr "topic_a")]; [("tasks.max", JInt 2)] ]
              fresh_world [("tasks.max", JInt 2)] Hpeer
              (or_intror (or_introl eq_refl)) eq_refl) as [H1 [H2 _]].
  split; [exact H1 | exact H2].
Defined.

(** ** Starting, patching and the event handlers *)

(** A handler that never raises a [ConnectApiError] makes the whole
    [try ... except ConnectApiError] free of it. *)
Lemma try_except_contains {A} (m : M A) (h : string -> M A) w msg :
  (forall e w' msg', fst (h e w') <> Raise (ConnectApiError msg')) ->
  fst (try_except_ConnectApiError m h w) <> Raise (ConnectApiError msg).
Proof.
  intros Hh. unfold try_except_ConnectApiError.
  destruct (m w) as [[a | e] w'] eqn:Em; cbn [fst]; try discriminate.
  destruct e; cbn [fst]; try discriminate. apply Hh.
Qed.

Section LifecycleFacts.

Variable transport : list http_request -> http_request -> string + http_response.
Variable repr_bytes : string -> string.
Variable repr_json : json -> string.
Variable MULTICONNECTOR_PREFIX : string.

Variable self : BaseIntegrator.t.

Let start := BaseIntegrator.start_connector transport repr_bytes MULTICONNECTOR_PREFIX.
Let patch := BaseIntegrator.patch_connector transport repr_bytes repr_json MULTICONNECTOR_PREFIX.
Let names := BaseIntegrator.connector_names MULTICONNECTOR_PREFIX.
Let base : Dict.t json :=
  to_dict (BaseIntegrator.formatter self) (BaseIntegrator.config self) ModeSource.

(** A create that the server refuses, or that does not reach it, raises a
    [ConnectApiError]. *)
Lemma client_start_refused client connector_config connector_name w :
  let rq := create_request client connector_config connector_name in
  (forall response, transport (calls w) rq = inr response ->
                    status_code response <> 201%Z /\ status_code response <> 409%Z) ->
  exists msg, fst (ConnectClient.start_connector transport repr_bytes client
                     connector_config connector_name w) = Raise (ConnectApiError msg).
Proof.
  intros rq Href.
  unfold ConnectClient.start_connector, bind. rewrite request_run.
  fold (create_request client connector_config connector_name). fold rq. cbv zeta.
  destruct (transport (calls w) rq) as [e | response]; [eexists; reflexivity |].
  destruct (Href response eq_refl) as [H201 H409].
  destruct (Z.eqb_spec (status_code response) 201) as [E | E]; [contradiction |].
  unfold lift, ConnectClient.already_exists.
  destruct (Z.eqb_spec (status_code response) 409) as [E' | E']; [contradiction |].
  eexists. reflexivity.
Qed.

(** The single connector case, by the outcome of the create. *)
Lemma start_single_cases w :
  BaseIntegrator.start_single transport repr_bytes self w =
  match ConnectClient.start_connector transport repr_bytes (BaseIntegrator._client self)
          (Dict.merge base (BaseIntegrator.dynamic_config w)) None w with
  | (Ok _, w') => (Ok true, w')
  | (Raise (ConnectApiError msg), w') =>
      (Ok false, add_log ERROR ("Connector start failed, details: " ++ msg) w')
  | (Raise e, w') => (Raise e, w')
  end.
Proof.
  unfold BaseIntegrator.start_single, try_except_ConnectApiError, bind, get_world.
  fold base.
  destruct (ConnectClient.start_connector transport repr_bytes (BaseIntegrator._client self)
              (Dict.merge base (BaseIntegrator.dynamic_config w)) None w)
    as [[[] | e] w']; [reflexivity |].
  destruct e; reflexivity.
Qed.

(** One turn of the loop of [start_connector], for any connector: the
    peer data is left alone, no [ConnectApiError] escapes, and the only
    call that can be issued is a create. *)
Lemma start_one_frame n w :
  let r := BaseIntegrator.start_one transport repr_bytes self n w in
  peer (snd r) = peer w
  /\ (forall msg, fst r <> Raise (ConnectApiError msg))
  /\ (exists new, calls (snd r) = (calls w ++ new)%list /\ Forall (is_create self) new).
Proof.
  intros r. split; [| split].
  - subst r.
    unfold BaseIntegrator.start_one, try_except_ConnectApiError, bind, get_world, lift.
    destruct (BaseIntegrator.overrides_of w n) as [o | e]; [| now destruct e].
    pose proof (client_start_effect transport repr_bytes (BaseIntegrator._client self)
                  (Dict.merge (to_dict (BaseIntegrator.formatter self)
                                 (BaseIntegrator.config self) ModeSource) o)
                  (Some n) w) as [_ Hp].
    destruct (ConnectClient.start_connector transport repr_bytes _ _ _ w)
      as [[[] | e] w']; cbn [fst snd] in *; auto.
    destruct e; cbn; auto.
  - intros msg. subst r. unfold BaseIntegrator.start_one.
    apply try_except_contains. intros e w' msg'. cbn. discriminate.
  - subst r.
    unfold BaseIntegrator.start_one, try_except_ConnectApiError, bind, get_world, lift.
    destruct (BaseIntegrator.overrides_of w n) as [o | e].
    + pose proof (client_start_effect transport repr_bytes (BaseIntegrator._client self)
                    (Dict.merge (to_dict (BaseIntegrator.formatter self)
                                   (BaseIntegrator.config self) ModeSource) o)
                    (Some n) w) as [Hc _].
      destruct (ConnectClient.start_connector transport repr_bytes _ _ _ w)
        as [[[] | e] w']; cbn [fst snd] in *.
      * eexists. split; [exact Hc |]. repeat constructor. eexists. eexists. reflexivity.
      * exists [create_request (BaseIntegrator._client self)
                  (Dict.merge (to_dict (BaseIntegrator.formatter self)
                                 (BaseIntegrator.config self) ModeSource) o) (Some n)].
        split; [destruct e; cbn; exact Hc |].
        repeat constructor. eexists. eexists. reflexivity.
    + exists []. split; [destruct e; cbn; now rewrite app_nil_r | constructor].
Qed.

Lemma start_each_frame ns : forall w,
  let r := BaseIntegrator.start_each transport repr_bytes self ns w in
  peer (snd r) = peer w
  /\ (forall msg, fst r <> Raise (ConnectApiError msg))
  /\ (exists new, calls (snd r) = (calls w ++ new)%list /\ Forall (is_create self) new).
Proof.
  induction ns as [| n ns IH]; intros w.
  - cbn. split; auto. split; [discriminate |]. exists []. split; [now rewrite app_nil_r | constructor].
  - destruct (start_one_frame n w) as [Hp [Hno [new [Hc Hnew]]]].
    cbv zeta. cbn [BaseIntegrator.start_each]. unfold bind.
    destruct (BaseIntegrator.start_one transport repr_bytes self n w)
      as [[[|] | e] w1]; cbn [fst snd] in *.
    + destruct (IH w1) as [Hp' [Hno' [new' [Hc' Hnew']]]].
      split; [congruence |]. split; [exact Hno' |].
      exists (new ++ new')%list. split.
      * rewrite Hc', Hc. now rewrite app_assoc.
      * apply Forall_app. auto.
    + cbn. split; auto. split; [discriminate |]. eauto.
    + split; auto. split; [exact Hno |]. eauto.
Qed.

(** X12: [start_connector] never lets a [ConnectApiError] out: when setup
    succeeds on an integrator that is not started, the start raises no
    such error, leaves the dynamic configuration as setup left it, issues
    nothing but create calls, and either stores nothing or returns with
    the flag [started] stored. *)
Theorem start_connector_contains_api_errors w w1 :
  BaseIntegrator.started w = false ->
  BaseIntegrator.setup self w = (Ok tt, w1) ->
  let r := start self w in
  (forall msg, fst r <> Raise (ConnectApiError msg))
  /\ BaseIntegrator.dynamic_config (snd r) = BaseIntegrator.dynamic_config w1
  /\ (exists new, calls (snd r) = (calls w1 ++ new)%list /\ Forall (is_create self) new)
  /\ (peer (snd r) = peer w1
      \/ (fst r = Ok tt /\ BaseIntegrator.started (snd r) = true)).
Proof.
  intros Hs Hsetup r. subst r. unfold start.
  rewrite (start_not_started transport repr_bytes MULTICONNECTOR_PREFIX self w w1 Hs Hsetup).
  destruct (start_each_frame (BaseIntegrator.connector_names MULTICONNECTOR_PREFIX w1) w1)
    as [Hp [Hno [new [Hc Hnew]]]].
  destruct (BaseIntegrator.start_each transport repr_bytes self _ w1)
    as [[[|] | e] w2]; cbn [fst snd] in *.
  - assert (Hsingle : exists r3 w3 new3,
               match BaseIntegrator.connector_names MULTICONNECTOR_PREFIX w2 with
               | [] => BaseIntegrator.start_single transport repr_bytes self w2
               | _ => (Ok true, w2)
               end = (r3, w3)
               /\ peer w3 = peer w2
               /\ (forall msg, r3 <> Raise (ConnectApiError msg))
               /\ calls w3 = (calls w2 ++ new3)%list /\ Forall (is_create self) new3).
    { destruct (BaseIntegrator.connector_names MULTICONNECTOR_PREFIX w2).
      - destruct (start_single_run transport repr_bytes self w2) as [Hp3 [Hc3 _]].
        assert (Hno3 : forall msg,
                  fst (BaseIntegrator.start_single transport repr_bytes self w2)
                  <> Raise (ConnectApiError msg)).
        { intros msg. unfold BaseIntegrator.start_single.
          apply try_except_contains. intros e w' msg'. cbn. discriminate. }
        destruct (BaseIntegrator.start_single transport repr_bytes self w2) as [r3 w3].
        cbn [fst snd] in *. exists r3, w3. eexists. split; [reflexivity |].
        split; [exact Hp3 |]. split; [exact Hno3 |]. split; [exact Hc3 |].
        repeat constructor. eexists. eexists. reflexivity.
      - exists (Ok true), w2, []. split; [reflexivity |]. split; auto.
        split; [discriminate |]. split; [now rewrite app_nil_r | constructor]. }
    destruct Hsingle as [r3 [w3 [new3 [-> [Hp3 [Hno3 [Hc3 Hnew3]]]]]]].
    assert (Hcalls : calls w3 = (calls w1 ++ (new ++ new3))%list)
      by (rewrite Hc3, Hc; now rewrite app_assoc).
    assert (Hall : Forall (is_create self) (new ++ new3)) by (apply Forall_app; auto).
    destruct r3 as [[|] | e].
    + destruct (set_started_run true w3) as [w' [Hrun [Hc' [_ [Hst Hd]]]]].
      rewrite Hrun. cbn [fst snd].
      split; [discriminate |]. split.
      * rewrite Hd. apply dynamic_config_peer. congruence.
      * split; [exists (new ++ new3)%list; split; [congruence | exact Hall] |].
        destruct (peer w3) as [p |] eqn:Ep.
        -- right. split; auto. apply Hst. discriminate.
        -- left. unfold BaseIntegrator.set_started, bind, get_world in Hrun.
           rewrite Ep in Hrun. inversion Hrun. congruence.
    + cbn [fst snd]. split; [discriminate |]. split.
      * apply dynamic_config_peer. congruence.
      * split; [eauto |]. left. congruence.
    + cbv beta iota. cbn [fst snd].
      split; [intros msg H; inversion H; subst e; now apply (Hno3 msg) |]. split.
      * apply dynamic_config_peer. congruence.
      * split; [eauto |]. left. congruence.
  - split; [discriminate |]. split; [now apply dynamic_config_peer |].
    split; [eauto |]. now left.
  - split; [intros msg H; inversion H; subst e; now apply (Hno msg) |].
    split; [now apply dynamic_config_peer |].
    split; [eauto |]. now left.
Qed.

(** X13: the single connector case of [start_connector] (no connector
    identifier in the dynamic configuration): one create call, named by
    the unique name of the integrator, with the formatter output merged
    with the dynamic configuration as payload.  When the server accepts
    it the integrator is started; when the call fails or the server
    answers neither 201 nor 409, the start returns normally after an
    error record and stores nothing, so the integrator stays as it was. *)
Theorem start_single_connector w w1 :
  BaseIntegrator.started w = false ->
  BaseIntegrator.setup self w = (Ok tt, w1) ->
  names w1 = [] ->
  peer w1 <> None ->
  let rq := create_request (BaseIntegrator._client self)
              (Dict.merge base (BaseIntegrator.dynamic_config w1)) None in
  let r := start self w in
  calls (snd r) = (calls w1 ++ [rq])%list
  /\ (forall response, transport (calls w1) rq = inr response -> accepted response ->
        fst r = Ok tt /\ BaseIntegrator.started (snd r) = true)
  /\ ((forall response, transport (calls w1) rq = inr response ->
         status_code response <> 201%Z /\ status_code response <> 409%Z) ->
      fst r = Ok tt
      /\ peer (snd r) = peer w1
      /\ exists msg, In (ERROR, "Connector start failed, details: " ++ msg) (logs (snd r))).
Proof.
  intros Hs Hsetup Hnames Hpeer rq r. subst r. unfold start.
  rewrite (start_not_started transport repr_bytes MULTICONNECTOR_PREFIX self w w1 Hs Hsetup).
  unfold names in Hnames. rewrite Hnames.
  change (BaseIntegrator.start_each transport repr_bytes self [] w1) with (Ok true, w1).
  cbv beta iota. rewrite Hnames. rewrite start_single_cases.
  pose proof (client_start_effect transport repr_bytes (BaseIntegrator._client self)
                (Dict.merge base (BaseIntegrator.dynamic_config w1)) None w1) as Heff.
  pose proof (client_start_accepted transport repr_bytes (BaseIntegrator._client self)
                (Dict.merge base (BaseIntegrator.dynamic_config w1)) None w1) as Hacc.
  pose proof (client_start_refused (BaseIntegrator._client self)
                (Dict.merge base (BaseIntegrator.dynamic_config w1)) None w1) as Href.
  cbv zeta in Heff, Href. fold rq in Heff, Hacc, Href.
  destruct (ConnectClient.start_connector transport repr_bytes (BaseIntegrator._client self)
              (Dict.merge base (BaseIntegrator.dynamic_config w1)) None w1)
    as [[[] | e] w2]; cbn [fst snd] in *; destruct Heff as [Hc Hp].
  - destruct (set_started_run true w2) as [w' [Hrun [Hc' [_ [Hst _]]]]].
    rewrite Hrun. cbn [fst snd]. split; [congruence |]. split.
    + intros _ _ _. split; auto. apply Hst. congruence.
    + intros Hno. destruct (Href Hno) as [msg Hmsg]. discriminate.
  - assert (Hnot : forall response, transport (calls w1) rq = inr response ->
                                    accepted response -> False).
    { intros response Ht Ha. specialize (Hacc response Ht Ha). discriminate. }
    destruct e; cbn [fst snd calls add_log]; (split; [exact Hc |]); split;
      try (intros response Ht Ha; exfalso; eapply Hnot; eauto);
      try (intros Hno; destruct (Href Hno) as [msg' Hmsg]; discriminate).
    intros _. split; auto. split; [exact Hp |].
    exists msg. cbn [logs add_log]. apply in_or_app. right. now left.
Qed.

End LifecycleFacts.

Section PatchFacts.

Variable transport : list http_request -> http_request -> string + http_response.
Variable repr_bytes : string -> string.
Variable repr_json : json -> string.
Variable MULTICONNECTOR_PREFIX : string.

Variable self : BaseIntegrator.t.

Let start := BaseIntegrator.start_connector transport repr_bytes MULTICONNECTOR_PREFIX.
Let patch := BaseIntegrator.patch_connector transport repr_bytes repr_json MULTICONNECTOR_PREFIX.
Let names := BaseIntegrator.connector_names MULTICONNECTOR_PREFIX.
Let base : Dict.t json :=
  to_dict (BaseIntegrator.formatter self) (BaseIntegrator.config self) ModeSource.







(** X15: after the relation is broken (teardown succeeding) the integrator is
    not started, whatever it was before; its dynamic configuration is
    kept and no REST call is made.  From there a patch does nothing: no
    call, no setup, nothing stored; and the task status is [UNASSIGNED]
    without asking the server. *)
Theorem relation_broken_then_idle w w1 :
  BaseIntegrator.teardown self w = (Ok tt, w1) ->
  let broken := BaseIntegrator._on_relation_broken self w in
  let w2 := snd broken in
  fst broken = Ok tt
  /\ BaseIntegrator.started w2 = false
  /\ BaseIntegrator.dynamic_config w2 = BaseIntegrator.dynamic_config w1
  /\ calls w2 = calls w1
  /\ patch self w2
     = (Ok tt, add_log INFO "Connector is not started yet, skipping update." w2)
  /\ BaseIntegrator.task_status transport repr_bytes repr_json MULTICONNECTOR_PREFIX self w2
     = (Ok UNASSIGNED, w2).
Proof.
  intros Htear broken w2. subst w2 broken.
  unfold BaseIntegrator._on_relation_broken, bind. rewrite Htear.
  destruct (set_started_run false w1) as [w' [Hrun [Hc [_ [Hst Hd]]]]].
  rewrite Hrun. cbn [fst snd].
  assert (Hfalse : BaseIntegrator.started w' = false).
  { destruct (peer w1) as [p |] eqn:Ep.
    - apply Hst. discriminate.
    - unfold BaseIntegrator.set_started, bind, get_world in Hrun. rewrite Ep in Hrun.
      inversion Hrun; subst w'. unfold BaseIntegrator.started. now rewrite Ep. }
  repeat split; auto.
  - unfold patch, BaseIntegrator.patch_connector, bind, get_world. now rewrite Hfalse.
  - unfold BaseIntegrator.task_status, bind, get_world. now rewrite Hfalse.
Qed.

(** X16: the handler of [integration_created] defers the event exactly when
    the integrator is not started once the handler is over: when the
    health check fails or the integrator is not ready it defers without
    trying to start (no call, nothing stored); when the integrator is
    started already it does not defer and issues no call. *)
Theorem integration_created_deferral health_check ready w :
  let r := BaseIntegrator._on_integration_created transport repr_bytes
             MULTICONNECTOR_PREFIX self health_check ready w in
  (forall deferred, fst r = Ok deferred ->
      deferred = negb (health_check && ready && BaseIntegrator.started (snd r)))
  /\ (health_check && ready = false ->
      fst r = Ok true /\ calls (snd r) = calls w /\ peer (snd r) = peer w)
  /\ (health_check && ready = true -> BaseIntegrator.started w = true ->
      fst r = Ok false /\ calls (snd r) = calls w /\ peer (snd r) = peer w).
Proof.
  intros r. subst r. unfold BaseIntegrator._on_integration_created.
  destruct health_check, ready; cbn [negb orb andb].
  2-4: unfold bind, log, ret; cbn [fst snd calls peer add_log];
       (split; [intros d H; now inversion H |]); split; [auto | discriminate].
  assert (Hrun :
            (log INFO ("Starting " ++ BaseIntegrator.name self ++ " connector...") ;;
             BaseIntegrator.start_connector transport repr_bytes MULTICONNECTOR_PREFIX self ;;
             w0 <- get_world ;;
             if negb (BaseIntegrator.started w0) then ret true else ret false)%monad w
            = match start self
                      (add_log INFO ("Starting " ++ BaseIntegrator.name self ++ " connector...") w)
              with
              | (Ok _, w') => (Ok (negb (BaseIntegrator.started w')), w')
              | (Raise e, w') => (Raise e, w')
              end).
  { unfold bind, log, get_world, start.
    destruct (BaseIntegrator.start_connector transport repr_bytes MULTICONNECTOR_PREFIX
                self _) as [[[] | e] w']; [| reflexivity].
    now destruct (BaseIntegrator.started w'). }
  rewrite Hrun. clear Hrun.
  split; [| split; [discriminate |]].
  - intros deferred.
    destruct (start self _) as [[[] | e] w']; cbn [fst snd]; [| discriminate].
    intros H. now inversion H.
  - intros _ Hs.
    assert (Hs' : BaseIntegrator.started
                    (add_log INFO ("Starting " ++ BaseIntegrator.name self ++ " connector...") w)
                  = true)
      by (rewrite <- Hs; apply started_peer; reflexivity).
    unfold start.
    rewrite (start_when_started transport repr_bytes MULTICONNECTOR_PREFIX self _ Hs').
    cbn [fst snd calls peer add_log].
    assert (Hs'' : BaseIntegrator.started
                     (add_log INFO "Connector has already started"
                        (add_log INFO
                           ("Starting " ++ BaseIntegrator.name self ++ " connector...") w))
                   = true)
      by (rewrite <- Hs; apply started_peer; reflexivity).
    rewrite Hs''. auto.
Qed.

End PatchFacts.

(** ** Readiness of the data interfaces *)

Lemma str_truthy_iff s : str_truthy s = true <-> s <> EmptyString.
Proof. destruct s; cbn; split; congruence. Qed.

Lemma check_keys_run relation_name _data check_for : forall w,
  let r := DataInterfacesHelpers.check_keys relation_name _data check_for w in
  (exists ready, fst r = Ok ready)
  /\ calls (snd r) = calls w
  /\ peer (snd r) = peer w
  /\ (fst r = Ok true -> snd r = w)
  /\ (fst r = Ok true <->
      forall key, In key check_for ->
                  DataInterfacesHelpers.field _data key <> EmptyString).
Proof.
  induction check_for as [| key rest IH]; intros w.
  - cbn. repeat split; eauto; try contradiction.
  - cbv zeta. cbn [DataInterfacesHelpers.check_keys].
    destruct (str_truthy (DataInterfacesHelpers.field _data key)) eqn:E; cbn [negb].
    + destruct (IH w) as [Hr [Hc [Hp [Hw Hiff]]]].
      split; [exact Hr |]. split; [exact Hc |]. split; [exact Hp |]. split; [exact Hw |].
      rewrite Hiff. split.
      * intros H k [<- | Hin]; [now apply str_truthy_iff | auto].
      * intros H k Hin. apply H. now right.
    + unfold bind, log, ret. cbn [fst snd calls peer add_log].
      split; [eauto |]. split; [reflexivity |]. split; [reflexivity |].
      split; [discriminate |]. split; [discriminate |].
      intros H. specialize (H key (or_introl eq_refl)).
      apply str_truthy_iff in H. congruence.
Qed.

(** X17: [check_data_interfaces_ready] never raises and never touches the REST
    calls or the peer data.  It answers true exactly when every relation
    asked about has some data and, in it, a non-empty value for every key
    checked; no relation to check means ready.  A positive answer leaves
    no log record. *)
Theorem check_data_interfaces_ready_iff rels relation_names check_for w :
  let r := DataInterfacesHelpers.check_data_interfaces_ready rels relation_names
             check_for w in
  (exists ready, fst r = Ok ready)
  /\ calls (snd r) = calls w
  /\ peer (snd r) = peer w
  /\ (fst r = Ok true -> snd r = w)
  /\ (fst r = Ok true <->
      forall relation_name, In relation_name relation_names ->
        DataInterfacesHelpers.fetch_all_relation_data rels relation_name <> []
        /\ forall key, In key check_for ->
             DataInterfacesHelpers.field
               (DataInterfacesHelpers.fetch_all_relation_data rels relation_name) key
             <> EmptyString).
Proof.
  revert w. induction relation_names as [| rn rest IH]; intros w.
  - cbn. repeat split; eauto; try contradiction.
  - cbv zeta. cbn [DataInterfacesHelpers.check_data_interfaces_ready].
    destruct (DataInterfacesHelpers.fetch_all_relation_data rels rn) as [| kv data] eqn:Ed.
    + unfold ret. cbn [fst snd].
      split; [eauto |]. split; [reflexivity |]. split; [reflexivity |].
      split; [discriminate |]. split; [discriminate |].
      intros H. destruct (H rn (or_introl eq_refl)) as [Hne _]. congruence.
    + destruct (check_keys_run rn (kv :: data) check_for w) as [[c Hr] [Hc [Hp [Hw Hiff]]]].
      unfold bind.
      destruct (DataInterfacesHelpers.check_keys rn (kv :: data) check_for w)
        as [r1 w1]; cbn [fst snd] in *. subst r1.
      destruct c.
      * assert (Hw1 : w1 = w) by auto. subst w1.
        destruct (IH w) as [Hr' [Hc' [Hp' [Hw' Hiff']]]].
        split; [exact Hr' |]. split; [exact Hc' |]. split; [exact Hp' |].
        split; [exact Hw' |].
        rewrite Hiff'. split.
        -- intros H n [<- | Hin]; [| auto]. rewrite Ed. split; [discriminate |].
           now apply Hiff.
        -- intros H n Hin. apply H. now right.
      * unfold ret. cbn [fst snd].
        split; [eauto |]. split; [exact Hc |]. split; [exact Hp |].
        split; [discriminate |]. split; [discriminate |].
        intros H. destruct (H rn (or_introl eq_refl)) as [_ Hkeys].
        rewrite Ed in Hkeys. apply Hiff in Hkeys. discriminate.
Qed.

(** ** The lifecycle on concrete runs *)


Lemma start_connector_contains_api_errors_witness :
  let w1 := snd (BaseIntegrator.setup (Integrator ModeSource related_context) fresh_world) in
  let r := BaseIntegrator.start_connector transport_error repr_bytes_plain example_prefix
             (Integrator ModeSource related_context) fresh_world in
  (forall msg, fst r <> Raise (ConnectApiError msg))
  /\ BaseIntegrator.dynamic_config (snd r) = BaseIntegrator.dynamic_config w1.
Proof.
  intros w1.
  destruct (start_connector_contains_api_errors transport_error repr_bytes_plain
              example_prefix (Integrator ModeSource related_context) fresh_world w1
              eq_refl eq_refl) as [H1 [H2 _]].
  split; [exact H1 | exact H2].
Defined.

Lemma start_single_connector_witness :
  let w1 := snd (BaseIntegrator.setup (Integrator ModeSource related_context) fresh_world) in
  let r := BaseIntegrator.start_connector transport_created repr_bytes_plain example_prefix
             (Integrator ModeSource related_context) fresh_world in
  calls (snd r)
  = (calls w1 ++
     [create_request (BaseIntegrator._client (Integrator ModeSource related_context))
        (Dict.merge
           (to_dict (BaseIntegrator.formatter (Integrator ModeSource related_context))
              (BaseIntegrator.config (Integrator ModeSource related_context)) ModeSource)
           (BaseIntegrator.dynamic_config w1))
        None])%list.
Proof.
  intros w1.
  assert (Hpeer : peer w1 <> None) by (vm_compute; discriminate).
  destruct (start_single_connector transport_created repr_bytes_plain example_prefix
              (Integrator ModeSource related_context) fresh_world w1
              eq_refl eq_refl eq_refl Hpeer) as [H _].
  exact H.
Defined.

(** A start that the server answers with 500: the start returns, the
    integrator is not started and the failure is in the log. *)
Example start_single_connector_refused :
  let r := BaseIntegrator.start_connector transport_error repr_bytes_plain example_prefix
             (Integrator ModeSource related_context) fresh_world in
  fst r = Ok tt
  /\ BaseIntegrator.started (snd r) = false
  /\ last (logs (snd r)) (DEBUG, EmptyString)
     = (ERROR, "Connector start failed, details: Unable to start the connector, details: b'boom'").
Proof. vm_compute. repeat split. Qed.


(** The patch call of that run. *)
Example patch_connector_request :
  map (fun rq => (req_method rq, req_url rq))
      (calls (snd (BaseIntegrator.patch_connector transport_ok repr_bytes_plain
                     repr_json_plain example_prefix
                     (Integrator ModeSource related_context) started_world)))
  = [(PATCH, "http://10.0.0.5:8083/connectors/test-integrator_r7_0f1e2d3c4b5a6978/config")].
Proof. vm_compute. reflexivity. Qed.

Lemma relation_broken_then_idle_witness :
  let w2 := snd (BaseIntegrator._on_relation_broken
                   (Integrator ModeSource related_context) started_world) in
  BaseIntegrator.started started_world = true
  /\ BaseIntegrator.started w2 = false
  /\ calls (snd (BaseIntegrator.patch_connector transport_ok repr_bytes_plain
                   repr_json_plain example_prefix
                   (Integrator ModeSource related_context) w2)) = [].
Proof.
  intros w2.
  destruct (relation_broken_then_idle transport_ok repr_bytes_plain repr_json_plain
              example_prefix (Integrator ModeSource related_context) started_world
              started_world eq_refl) as [_ [H1 [_ [H2 [H3 _]]]]].
  split; [reflexivity |]. split; [exact H1 |].
  fold w2 in H3. rewrite H3. cbn [snd calls add_log]. exact H2.
Defined.

(** ** The mode the controller formats for *)




Section SourcePayload.

Variable transport : list http_request -> http_request -> string + http_response.
Variable repr_bytes : string -> string.
Variable repr_json : json -> string.
Variable MULTICONNECTOR_PREFIX : string.

Variable self : BaseIntegrator.t.

Let start := BaseIntegrator.start_connector transport repr_bytes MULTICONNECTOR_PREFIX.
Let patch := BaseIntegrator.patch_connector transport repr_bytes repr_json MULTICONNECTOR_PREFIX.
Let names := BaseIntegrator.connector_names MULTICONNECTOR_PREFIX.
Let base : Dict.t json :=
  to_dict (BaseIntegrator.formatter self) (BaseIntegrator.config self) ModeSource.
















End SourcePayload.


(** The same through the overrides, with the formatter of the test charm:
    its sink-only key converter is in the payload when setup configures
    it. *)
Example controller_sink_key_from_overrides :
  map wire_payload
      (calls (snd (BaseIntegrator.start_connector transport_created repr_bytes_plain
                     example_prefix KeyConverterIntegrator fresh_world)))
  = [ Some [("file", JStr "/tmp/test.jsonl");
            ("tasks.max", JInt 1);
            ("topic", JStr "source_test");
            ("topic.creation.default.partitions", JInt 10);
            ("topic.creation.default.replication.factor", JInt (-1));
            ("value.converter", JStr "org.apache.kafka.connect.json.JsonConverter");
            ("key.converter", JStr "org.apache.kafka.connect.json.JsonConverter")] ].
Proof. vm_compute. reflexivity. Qed.

